(** * lastuserapp.forms.client: validation of the client, permission and
      resource forms

    A shallow embedding of [lastuserapp/forms/client.py].  The forms are
    WTForms classes: every field carries a list of validators, a method
    [validate_<field>] is an inline validator which the framework appends to
    that field's chain, and validators signal failure by raising
    [ValidationError].  The methods of the module mutate the form object
    ([self.user], [self.org], [self.name.errors]) and read the relational
    store through [Model.query.filter_by(...).first()].

    The embedding keeps that shape: a state-and-exception monad [M] over the
    form object, in which a raised exception leaves the mutations made so far
    in place (as in Python), a read-only snapshot of the tables, and a log of
    the queries that were issued, in order. *)

From Stdlib Require Import String Ascii List ZArith Bool Arith Lia.
Import ListNotations.
Local Open Scope string_scope.
Local Open Scope list_scope.

(* ===================================================================== *)
(** ** Rows of [lastuserapp.models]                                        *)
(* ===================================================================== *)

(** Only the columns which the forms read are kept.  [id] is the integer
    primary key, [userid] the opaque public identifier. *)

Record Organization := mkOrganization {
  org_id : Z;
  org_userid : string
}.

(** [organizations_owned] is a method of the model; the record holds the list
    it returns for this user. *)
Record User := mkUser {
  user_id : Z;
  userid : string;
  organizations_owned : list Organization
}.

(** A permission belongs to a user or to an organization ([user], [org] are
    foreign keys, [None] is SQL NULL); [allusers] marks a global one. *)
Record Permission := mkPermission {
  perm_id : Z;
  perm_name : string;
  allusers : bool;
  perm_user : option Z;
  perm_org : option Z
}.

Record Resource := mkResource {
  res_id : Z;
  res_name : string
}.

Record ResourceAction := mkResourceAction {
  act_id : Z;
  act_name : string;
  act_resource : Z
}.

(** The tables, each in the order in which the database returns its rows. *)
Record Store := mkStore {
  Permission_table : list Permission;
  Organization_table : list Organization;
  Resource_table : list Resource;
  ResourceAction_table : list ResourceAction
}.

(** The queries the forms issue. *)
Inductive Query : Type :=
| Q_organizations_owned (u : Z)
| Q_Permission_allusers (name : string)
| Q_Permission_user (name : string) (u : Z)
| Q_Permission_org (name : string) (o : Z)
| Q_Organization (ident : string)
| Q_Resource (name : string)
| Q_ResourceAction (name : string) (resource : Z).

(* ===================================================================== *)
(** ** The form object and the monad of its methods                        *)
(* ===================================================================== *)

Inductive Exn : Type :=
| ValidationError (msg : string)
| StopValidation (msg : option string)
| IndexError.

Inductive Result (A : Type) : Type :=
| Ok (a : A)
| Raise (e : Exn).

Arguments Ok {A} a.
Arguments Raise {A} e.

(** The attributes the methods assign.  An attribute which was never assigned
    is [None]; one holding Python's [None] is [Some None].  [errors] maps a
    field name to that field's [errors] list, and [queries] is the log. *)
Record Form := mkForm {
  self_user : option (option User);
  self_org : option (option Organization);
  errors : list (string * list string);
  queries : list Query
}.

Definition new_form : Form := mkForm None None [] [].

Definition M (A : Type) : Type := Form -> Result A * Form.

Definition ret {A} (a : A) : M A := fun s => (Ok a, s).

Definition bind {A B} (m : M A) (k : A -> M B) : M B :=
  fun s =>
    match m s with
    | (Ok a, s') => k a s'
    | (Raise e, s') => (Raise e, s')
    end.

Definition raise {A} (e : Exn) : M A := fun s => (Raise e, s).

Declare Scope form_scope.
Delimit Scope form_scope with form.
Notation "x <- m ;; k" := (bind m (fun x => k))
  (at level 61, m at next level, right associativity) : form_scope.
Notation "m ;; k" := (bind m (fun _ => k))
  (at level 61, right associativity) : form_scope.
Local Open Scope form_scope.

Definition set_user (u : option User) : M unit :=
  fun s => (Ok tt, mkForm (Some u) (self_org s) (errors s) (queries s)).

Definition set_org (o : option Organization) : M unit :=
  fun s => (Ok tt, mkForm (self_user s) (Some o) (errors s) (queries s)).

Definition issue (q : Query) : M unit :=
  fun s => (Ok tt, mkForm (self_user s) (self_org s) (errors s) (queries s ++ [q])).

Fixpoint assoc_set (k : string) (v : list string) (l : list (string * list string))
  : list (string * list string) :=
  match l with
  | [] => [(k, v)]
  | (k', v') :: rest =>
      if k' =? k then (k, v) :: rest else (k', v') :: assoc_set k v rest
  end.

Fixpoint assoc_get (k : string) (l : list (string * list string)) : list string :=
  match l with
  | [] => []
  | (k', v') :: rest => if k' =? k then v' else assoc_get k rest
  end.

Definition set_errors (field : string) (errs : list string) : M unit :=
  fun s => (Ok tt, mkForm (self_user s) (self_org s)
                          (assoc_set field errs (errors s)) (queries s)).

(** [field.errors.append(msg)] *)
Definition errors_append (field msg : string) : M unit :=
  fun s => (Ok tt, mkForm (self_user s) (self_org s)
                          (assoc_set field (assoc_get field (errors s) ++ [msg]) (errors s))
                          (queries s)).

(** [Model.query.filter_by(...).first()]: the first row that passes. *)
Definition first {A} (p : A -> bool) (rows : list A) : option A := find p rows.

(** [x != edit_id] for an integer key and an [edit_id] which may be [None]. *)
Definition id_differs (i : Z) (edit_id : option Z) : bool :=
  match edit_id with
  | Some j => negb (i =? j)%Z
  | None => true
  end.

(* ===================================================================== *)
(** ** The part of WTForms the forms rely on                               *)
(* ===================================================================== *)

(** [unicode.isspace] on the characters below 256. *)
Definition isspace (c : ascii) : bool :=
  let n := nat_of_ascii c in
  (((9 <=? n) && (n <=? 13)) || ((28 <=? n) && (n <=? 32))
   || (n =? 133) || (n =? 160))%nat.

Fixpoint all_chars (p : ascii -> bool) (s : string) : bool :=
  match s with
  | EmptyString => true
  | String c rest => p c && all_chars p rest
  end.

(** [not data or not data.strip()] *)
Definition blank (data : string) : bool := all_chars isspace data.

Definition Validator : Type := string -> M unit.

(* The CSRF token which flask.ext.wtf adds to every form belongs to the web
   layer; it is taken to be valid and is not a field here. *)

(** [wtf.Required()]: empties the error list and stops the chain. *)
Definition Required : Validator :=
  fun data =>
    if blank data then raise (StopValidation (Some "This field is required."))
    else ret tt.

(** [wtf.Optional()]: empties the error list and stops the chain. *)
Definition Optional : Validator :=
  fun data =>
    if blank data then raise (StopValidation None) else ret tt.

(** A field after the request data was bound to it.  [field_choices] is
    [Some] for the select fields (here, the radio fields). *)
Record Field := mkField {
  field_name : string;
  field_data : string;
  field_choices : option (list string);
  field_validators : list Validator
}.

(** [Field.pre_validate]: a select field checks that its value is among its
    choices; the [ValueError] is recorded and the chain still runs. *)
Definition pre_validate (f : Field) : list string :=
  match field_choices f with
  | Some cs => if existsb (String.eqb (field_data f)) cs then [] else ["Not a valid choice"]
  | None => []
  end.

(** [Field._run_validation_chain]: [ValidationError] is recorded and the chain
    goes on; [StopValidation] ends it (the validators which raise it have
    emptied [errors] first); any other exception propagates. *)
Fixpoint run_validation_chain (data : string) (chain : list Validator)
         (errs : list string) : M (list string) :=
  match chain with
  | [] => ret errs
  | v :: rest =>
      fun s =>
        match v data s with
        | (Ok _, s') => run_validation_chain data rest errs s'
        | (Raise (ValidationError m), s') =>
            run_validation_chain data rest (errs ++ [m]) s'
        | (Raise (StopValidation m), s') =>
            (Ok (match m with Some x => [x] | None => [] end), s')
        | (Raise IndexError, s') => (Raise IndexError, s')
        end
  end.

(** [Field.validate(form, extra_validators)] *)
Definition Field_validate (f : Field) (extra : list Validator) : M bool :=
  errs <- run_validation_chain (field_data f) (field_validators f ++ extra)
                               (pre_validate f) ;;
  set_errors (field_name f) errs ;;
  ret (match errs with [] => true | _ => false end).

(** [Form.validate()]: every field is validated, in the order of definition,
    each with its inline validator at the end of its chain. *)
Fixpoint Form_validate (fields : list (Field * list Validator)) : M bool :=
  match fields with
  | [] => ret true
  | (f, extra) :: rest =>
      ok <- Field_validate f extra ;;
      success <- Form_validate rest ;;
      ret (ok && success)
  end.

(** [existing and existing.id != edit_id], on the key of the row found. *)
Definition conflicts (existing : option Z) (edit_id : option Z) : bool :=
  match existing with
  | Some i => id_differs i edit_id
  | None => false
  end.

(** A foreign key, which may be NULL, refers to the row with key [i]. *)
Definition key_is (k : option Z) (i : Z) : bool :=
  match k with
  | Some j => (j =? i)%Z
  | None => false
  end.

(* ===================================================================== *)
(** ** class RegisterClientForm                                            *)
(* ===================================================================== *)

Module RegisterClientForm.

(** The submitted values; [client_owner_choices] is the list of choices
    the view gives to the radio field. *)
Record t := mk {
  title : string;
  description : string;
  client_owner : string;
  client_owner_choices : list string;
  website : string;
  redirect_uri : string;
  notification_uri : string;
  iframe_uri : string;
  resource_uri : string;
  allow_any_login : bool
}.

Definition validate_client_owner (g_user : User) : Validator :=
  fun data =>
    if data =? userid g_user then
      set_user (Some g_user) ;;
      set_org None
    else
      issue (Q_organizations_owned (user_id g_user)) ;;
      let orgs := filter (fun org => org_userid org =? data)
                         (organizations_owned g_user) in
      if negb (length orgs =? 1)%nat then
        raise (ValidationError "Invalid owner")
      else
        set_user None ;;
        match orgs with
        | o :: _ => set_org (Some o)
        | [] => raise IndexError
        end.

Section WithURL.

(** The regular expression of [wtf.URL(require_tld = False)]. *)
Variable url_match : string -> bool.

Definition URL : Validator :=
  fun data =>
    if url_match data then ret tt else raise (ValidationError "Invalid URL.").

Definition fields (g_user : User) (self : t) : list (Field * list Validator) :=
  [ (mkField "title" (title self) None [Required], []);
    (mkField "description" (description self) None [Required], []);
    (mkField "client_owner" (client_owner self) (Some (client_owner_choices self))
             [Required], [validate_client_owner g_user]);
    (mkField "website" (website self) None [Required; URL], []);
    (mkField "redirect_uri" (redirect_uri self) None [Optional; URL], []);
    (mkField "notification_uri" (notification_uri self) None [Optional; URL], []);
    (mkField "iframe_uri" (iframe_uri self) None [Optional; URL], []);
    (mkField "resource_uri" (resource_uri self) None [Optional; URL], []);
    (mkField "allow_any_login" (if allow_any_login self then "y" else "") None [], []) ].

(** The inherited [Form.validate]. *)
Definition validate (g_user : User) (self : t) : M bool :=
  Form_validate (fields g_user self).

End WithURL.

End RegisterClientForm.

(* ===================================================================== *)
(** ** class PermissionForm                                                *)
(* ===================================================================== *)

Module PermissionForm.

Record t := mk {
  name : string;
  title : string;
  description : string;
  context : string;
  context_choices : list string;
  edit_obj : option Permission
}.

Definition validate_context (g_user : User) : Validator :=
  fun data =>
    if data =? userid g_user then
      set_user (Some g_user) ;;
      set_org None
    else
      issue (Q_organizations_owned (user_id g_user)) ;;
      let orgs := filter (fun org => org_userid org =? data)
                         (organizations_owned g_user) in
      if negb (length orgs =? 1)%nat then
        raise (ValidationError "Invalid context")
      else
        set_user None ;;
        match orgs with
        | o :: _ => set_org (Some o)
        | [] => raise IndexError
        end.

Definition fields (g_user : User) (self : t) : list (Field * list Validator) :=
  [ (mkField "name" (name self) None [Required], []);
    (mkField "title" (title self) None [Required], []);
    (mkField "description" (description self) None [], []);
    (mkField "context" (context self) (Some (context_choices self))
             [Required], [validate_context g_user]) ].

Section WithUtils.

(** [lastuserapp.utils.valid_username] *)
Variable valid_username : string -> bool.

Definition validate (g_user : User) (db : Store) (self : t) : M bool :=
  rv <- Form_validate (fields g_user self) ;;
  if negb rv then ret false
  else if negb (valid_username (name self)) then
    raise (ValidationError "Name contains invalid characters")
  else
    let edit_id := match edit_obj self with
                   | Some o => Some (perm_id o)
                   | None => None
                   end in
    issue (Q_Permission_allusers (name self)) ;;
    let existing := first (fun p => (perm_name p =? name self) && allusers p)
                          (Permission_table db) in
    if conflicts (option_map perm_id existing) edit_id then
      errors_append "name" "A global permission with that name already exists" ;;
      ret false
    else
      existing <-
        (if context self =? userid g_user then
           issue (Q_Permission_user (name self) (user_id g_user)) ;;
           ret (first (fun p => (perm_name p =? name self)
                                && key_is (perm_user p) (user_id g_user))
                      (Permission_table db))
         else
           issue (Q_Organization (context self)) ;;
           match first (fun o => org_userid o =? context self)
                       (Organization_table db) with
           | Some org =>
               issue (Q_Permission_org (name self) (org_id org)) ;;
               ret (first (fun p => (perm_name p =? name self)
                                    && key_is (perm_org p) (org_id org))
                          (Permission_table db))
           | None => ret None
           end) ;;
      if conflicts (option_map perm_id existing) edit_id then
        errors_append "name" "You have another permission with the same name" ;;
        ret false
      else
        ret true.

End WithUtils.

End PermissionForm.

(* ===================================================================== *)
(** ** class ResourceForm                                                  *)
(* ===================================================================== *)

Module ResourceForm.

(** [edit_id] is the attribute the view sets on the form: the key of the
    row being edited, [None] for a new one. *)
Record t := mk {
  name : string;
  title : string;
  description : string;
  siteresource : bool;
  trusted : bool;
  edit_id : option Z
}.

Section WithUtils.

Variable valid_username : string -> bool.

Definition validate_name (db : Store) (self : t) : Validator :=
  fun data =>
    if negb (valid_username data) then
      raise (ValidationError "Name contains invalid characters.")
    else
      issue (Q_Resource data) ;;
      let existing := first (fun r => res_name r =? data) (Resource_table db) in
      if conflicts (option_map res_id existing) (edit_id self) then
        raise (ValidationError "A resource with that name already exists")
      else ret tt.

Definition fields (db : Store) (self : t) : list (Field * list Validator) :=
  [ (mkField "name" (name self) None [Required], [validate_name db self]);
    (mkField "title" (title self) None [Required], []);
    (mkField "description" (description self) None [], []);
    (mkField "siteresource" (if siteresource self then "y" else "") None [], []);
    (mkField "trusted" (if trusted self then "y" else "") None [], []) ].

Definition validate (db : Store) (self : t) : M bool :=
  Form_validate (fields db self).

End WithUtils.

End ResourceForm.

(* ===================================================================== *)
(** ** class ResourceActionForm                                            *)
(* ===================================================================== *)

Module ResourceActionForm.

(** [edit_resource] and [edit_id] are set by the view: the resource the
    action belongs to, and the key of the action being edited. *)
Record t := mk {
  name : string;
  title : string;
  description : string;
  edit_resource : Resource;
  edit_id : option Z
}.

Section WithUtils.

Variable valid_username : string -> bool.

Definition validate_name (db : Store) (self : t) : Validator :=
  fun data =>
    if negb (valid_username data) then
      raise (ValidationError "Name contains invalid characters.")
    else
      issue (Q_ResourceAction data (res_id (edit_resource self))) ;;
      let existing :=
        first (fun a => (act_name a =? data)
                        && (act_resource a =? res_id (edit_resource self))%Z)
              (ResourceAction_table db) in
      if conflicts (option_map act_id existing) (edit_id self) then
        raise (ValidationError "An action with that name already exists for this resource")
      else ret tt.

Definition fields (db : Store) (self : t) : list (Field * list Validator) :=
  [ (mkField "name" (name self) None [Required], [validate_name db self]);
    (mkField "title" (title self) None [Required], []);
    (mkField "description" (description self) None [], []) ].

Definition validate (db : Store) (self : t) : M bool :=
  Form_validate (fields db self).

End WithUtils.

End ResourceActionForm.


(* ===================================================================== *)
(** ** class UserPermissionAssignForm                                      *)
(* ===================================================================== *)

Module UserPermissionAssignForm.

Section WithModels.

(** [lastuserapp.models.getuser]: the user with this username or email
    address, [None] when there is none. *)
Variable getuser : string -> option User.

Definition validate_username : Validator :=
  fun data =>
    match getuser data with
    | None => raise (ValidationError "User does not exist")
    | Some existing => set_user (Some existing)
    end.

(** The text field [username] with its chain.  The field [perms] is a
    multiple select and is bound to a list; it is not a field here. *)
Definition username_field (data : string) : Field * list Validator :=
  (mkField "username" data None [Required], [validate_username]).

End WithModels.

End UserPermissionAssignForm.

(* ===================================================================== *)
(** ** class TeamPermissionAssignForm                                      *)
(* ===================================================================== *)

Module TeamPermissionAssignForm.

Record Team := mkTeam {
  team_id : Z;
  team_userid : string
}.

(** The attributes of the form object which the validator reads and assigns:
    [org_teams] is [self.org.teams], the organization being set by the view,
    and [self_team] is [self.team], [None] while it was never assigned. *)
Record t := mk {
  org_teams : list Team;
  self_team : option Team
}.

Definition validate_team_id (data : string) (self : t) : Result unit * t :=
  let teams := filter (fun team => team_userid team =? data) (org_teams self) in
  if negb (length teams =? 1)%nat then
    (Raise (ValidationError "Unknown team"), self)
  else
    match teams with
    | team :: _ => (Ok tt, mk (org_teams self) (Some team))
    | [] => (Raise IndexError, self)
    end.

End TeamPermissionAssignForm.

(* ===================================================================== *)
(** ** The persistence write and the grants                                *)
(* ===================================================================== *)

(** Modelled from the spec: the views which write an accepted form to the
    store are not among the sources ("persistence write is the caller's
    responsibility once validation passes").  A new row goes to the end of
    its table. *)
Definition add_permission (p : Permission) (db : Store) : Store :=
  mkStore (Permission_table db ++ [p]) (Organization_table db)
          (Resource_table db) (ResourceAction_table db).

(** Modelled from the spec: the same write for an accepted action form. *)
Definition add_action (a : ResourceAction) (db : Store) : Store :=
  mkStore (Permission_table db) (Organization_table db)
          (Resource_table db) (ResourceAction_table db ++ [a]).

Definition resolved_user (f : Form) : option Z :=
  match self_user f with
  | Some (Some u) => Some (user_id u)
  | _ => None
  end.

Definition resolved_org (f : Form) : option Z :=
  match self_org f with
  | Some (Some o) => Some (org_id o)
  | _ => None
  end.

(** Modelled from the spec: the row written for an accepted permission form.
    It is scoped (not global) and belongs to the context the form resolved,
    [form.user] or [form.org]. *)
Definition new_permission (key : Z) (name : string) (f : Form) : Permission :=
  mkPermission key name false (resolved_user f) (resolved_org f).

Module Grants.

Inductive Principal : Type :=
| OwnerUser (key : Z)
| OwnerOrg (key : Z).

Inductive Target : Type :=
| ToUser (key : Z)
| ToTeam (key : Z).

Record Client := mkClient {
  client_id : Z;
  client_owner : Principal
}.

(** One permission granted to a user or a team for one client. *)
Record Grant := mkGrant {
  grant_client : Z;
  grant_target : Target;
  grant_permission : Z
}.

Record t := mk {
  clients : list Client;
  grants : list Grant
}.

Definition Principal_eqb (a b : Principal) : bool :=
  match a, b with
  | OwnerUser i, OwnerUser j => (i =? j)%Z
  | OwnerOrg i, OwnerOrg j => (i =? j)%Z
  | _, _ => false
  end.

(** Modelled from the spec: the permission lookup for a client, "the
    permissions previously granted to that client". *)
Definition permissions_of (c : Z) (st : t) : list Grant :=
  filter (fun g => (grant_client g =? c)%Z) (grants st).

Definition owner_of (c : Z) (st : t) : option Principal :=
  option_map client_owner (find (fun cl => (client_id cl =? c)%Z) (clients st)).

(** Modelled from the spec: Contract D, the owner reassignment which the
    view performs when the client form is saved (the view is not among the
    sources; the form only announces it in the description of
    [client_owner]).  When the owner changes, every grant of the client is
    revoked; the grants of other clients stay. *)
Definition reassign_owner (c : Z) (new_owner : Principal) (st : t) : t :=
  match owner_of c st with
  | None => st
  | Some old =>
      if Principal_eqb old new_owner then st
      else
        mk (map (fun cl => if (client_id cl =? c)%Z then mkClient c new_owner else cl)
                (clients st))
           (filter (fun g => negb (grant_client g =? c)%Z) (grants st))
  end.

End Grants.

(* ===================================================================== *)
(** ** Concrete validators and rows, to run the forms                      *)
(* ===================================================================== *)

Definition in_range (lo hi : nat) (c : ascii) : bool :=
  let n := nat_of_ascii c in ((lo <=? n) && (n <=? hi))%nat.

Definition is_lower (c : ascii) : bool := in_range 97 122 c.
Definition is_upper (c : ascii) : bool := in_range 65 90 c.
Definition is_digit (c : ascii) : bool := in_range 48 57 c.

(** Modelled from the spec: [lastuserapp.utils.valid_username] is not among
    the sources.  The spec gives the rule as a token of "lowercase
    alphanumerics plus limited punctuation, no spaces"; the punctuation is
    taken to be the hyphen. *)
Definition utils_valid_username (s : string) : bool :=
  negb (s =? "")
  && all_chars (fun c => is_lower c || is_digit c || Ascii.eqb c "-"%char) s.

Fixpoint span (p : ascii -> bool) (s : string) : string * string :=
  match s with
  | EmptyString => (EmptyString, EmptyString)
  | String c rest =>
      if p c then let (a, b) := span p rest in (String c a, b)
      else (EmptyString, s)
  end.

Definition newline : ascii := ascii_of_nat 10.

(** [$]: the end of the string, or just before a final newline. *)
Definition at_end (s : string) : bool :=
  (s =? "") || (s =? String newline "").

(** Any characters but a newline, then [$]. *)
Fixpoint dots_end (s : string) : bool :=
  match s with
  | EmptyString => true
  | String c rest => if Ascii.eqb c newline then rest =? "" else dots_end rest
  end.

(** The optional path, a slash and any characters but a newline, then [$]. *)
Definition path_end (s : string) : bool :=
  at_end s
  || match s with
     | String c rest => Ascii.eqb c "/"%char && dots_end rest
     | EmptyString => false
     end.

(** The optional port, a colon and digits, then the optional path and [$]. *)
Definition port_path_end (s : string) : bool :=
  path_end s
  || match s with
     | String c rest =>
         Ascii.eqb c ":"%char
         && (let (ds, r) := span is_digit rest in negb (ds =? "") && path_end r)
     | EmptyString => false
     end.

(** The pattern of [wtf.URL(require_tld = False)], matched from the start of
    the value and ignoring case: a scheme of letters, [://], a host which is
    a run of characters other than [/] and [:] (the dotted-quad alternative
    of the pattern is a special case of it), an optional port and an
    optional path.  Every repetition is followed by a character outside its
    class, so the longest run decides. *)
Definition URL_match (s : string) : bool :=
  let (scheme, r1) := span (fun c => is_lower c || is_upper c) s in
  negb (scheme =? "")
  && match r1 with
     | String c1 (String c2 (String c3 r2)) =>
         Ascii.eqb c1 ":"%char && Ascii.eqb c2 "/"%char && Ascii.eqb c3 "/"%char
         && (let (host, r3) :=
               span (fun c => negb (Ascii.eqb c "/"%char || Ascii.eqb c ":"%char)) r2 in
             negb (host =? "") && port_path_end r3)
     | _ => false
     end.

(** The rows of the scenario of the spec: user U owns the organizations A and
    B, and C is an organization U does not own. *)
Module Sample.

Definition org_A : Organization := mkOrganization 11 "org-a".
Definition org_B : Organization := mkOrganization 12 "org-b".
Definition org_C : Organization := mkOrganization 13 "org-c".
Definition U : User := mkUser 1 "user-u" [org_A; org_B].

Definition billing : Resource := mkResource 21 "billing".
Definition profile : Resource := mkResource 22 "profile".

Definition empty_db : Store := mkStore [] [org_A; org_B; org_C] [billing; profile] [].

(** A global permission "admin", owned by user 2. *)
Definition global_admin : Permission := mkPermission 31 "admin" true (Some 2%Z) None.

Definition db_global_admin : Store := add_permission global_admin empty_db.

Definition choices : list string := ["user-u"; "org-a"; "org-b"].

Definition permission_form (name context : string) (edit : option Permission)
  : PermissionForm.t :=
  PermissionForm.mk name "Title" "" context choices edit.

Definition client_form (website redirect : string) : RegisterClientForm.t :=
  RegisterClientForm.mk "App" "An application" "user-u" choices
                        website redirect "" "" "" true.

Definition action_form (name : string) (r : Resource) (edit : option Z)
  : ResourceActionForm.t :=
  ResourceActionForm.mk name "Title" "" r edit.

End Sample.

(* ===================================================================== *)
(** ** Predicates of the statements                                        *)
(* ===================================================================== *)

(** Exactly one of the organizations the user owns has the identifier
    [ident], and it is [o]. *)
Definition owns_exactly_one (g_user : User) (ident : string) (o : Organization) : Prop :=
  exists before after,
    organizations_owned g_user = before ++ o :: after
    /\ org_userid o = ident
    /\ forall o', In o' (before ++ after) -> org_userid o' <> ident.

(** What an owner or context validator [v], whose rejection carries [msg],
    does for every acting user, identifier and form object. *)
Definition resolves_owner (v : User -> Validator) (msg : string) : Prop :=
  forall (g_user : User) (ident : string) (s : Form),
    (ident = userid g_user ->
       v g_user ident s
       = (Ok tt, mkForm (Some (Some g_user)) (Some None) (errors s) (queries s)))
    /\ (ident <> userid g_user ->
        forall o, owns_exactly_one g_user ident o ->
          v g_user ident s
          = (Ok tt, mkForm (Some None) (Some (Some o)) (errors s)
                           (queries s ++ [Q_organizations_owned (user_id g_user)])))
    /\ (ident <> userid g_user ->
        (forall o, ~ owns_exactly_one g_user ident o) ->
          v g_user ident s
          = (Raise (ValidationError msg),
             mkForm (self_user s) (self_org s) (errors s)
                    (queries s ++ [Q_organizations_owned (user_id g_user)]))).

(** After a successful resolution exactly one of [self.user] and [self.org]
    holds a row and the other holds [None]. *)
Definition one_owner (f : Form) : Prop :=
  (exists u, self_user f = Some (Some u) /\ self_org f = Some None)
  \/ (exists o, self_user f = Some None /\ self_org f = Some (Some o)).

(** The queries made by the field validators of the permission form: the
    context validator asks for the owned organizations, unless the context is
    blank (the chain stops at [Required]) or is the acting user's own. *)
Definition context_queries (g_user : User) (self : PermissionForm.t) : list Query :=
  if blank (PermissionForm.context self) then []
  else if PermissionForm.context self =? userid g_user then []
  else [Q_organizations_owned (user_id g_user)].

(** The context which the field validators of an accepted permission form
    have resolved, as left in the form object [f]. *)
Definition context_resolved (g_user : User) (self : PermissionForm.t) (f : Form) : Prop :=
  (PermissionForm.context self = userid g_user
   /\ self_user f = Some (Some g_user) /\ self_org f = Some None)
  \/ (PermissionForm.context self <> userid g_user
      /\ exists o, owns_exactly_one g_user (PermissionForm.context self) o
                   /\ self_user f = Some None /\ self_org f = Some (Some o)).

(** The error kinds of the spec, as the messages the forms give. *)
Definition InvalidName : string := "Name contains invalid characters".
Definition DuplicateGlobalPermission : string :=
  "A global permission with that name already exists".
Definition DuplicateScopedPermission : string :=
  "You have another permission with the same name".
Definition DuplicateResource : string := "A resource with that name already exists".
Definition DuplicateAction : string :=
  "An action with that name already exists for this resource".
Definition MalformedURI : string := "Invalid URL.".
Definition MissingValue : string := "This field is required.".

(** A run of a form's [validate] returned [True]. *)
Definition accepted (r : Result bool * Form) : Prop := fst r = Ok true.

(** A run of a form's [validate] returned [False] and left exactly [msg] in
    the error list of [field]. *)
Definition rejected (r : Result bool * Form) (field msg : string) : Prop :=
  fst r = Ok false /\ assoc_get field (errors (snd r)) = [msg].

(** The lookups of the two conflict checks of the permission form; the
    scoped check reads the organization and the permission tables. *)
Definition scoped_lookup (q : Query) : bool :=
  match q with
  | Q_Permission_user _ _ | Q_Permission_org _ _ | Q_Organization _ => true
  | _ => false
  end.

(** The permission [q] belongs to the context named [ident], as the scoped
    check of the permission form looks it up. *)
Definition scoped_to (g_user : User) (db : Store) (ident : string) (q : Permission) : bool :=
  if ident =? userid g_user then key_is (perm_user q) (user_id g_user)
  else match first (fun o => org_userid o =? ident) (Organization_table db) with
       | Some org => key_is (perm_org q) (org_id org)
       | None => false
       end.

Definition global_existing (db : Store) (name : string) : option Permission :=
  first (fun p => (perm_name p =? name) && allusers p) (Permission_table db).

Definition scoped_existing (g_user : User) (db : Store) (self : PermissionForm.t)
  : option Permission :=
  first (fun p => (perm_name p =? PermissionForm.name self)
                  && scoped_to g_user db (PermissionForm.context self) p)
        (Permission_table db).

Definition scoped_queries (g_user : User) (db : Store) (self : PermissionForm.t)
  : list Query :=
  if PermissionForm.context self =? userid g_user then
    [Q_Permission_user (PermissionForm.name self) (user_id g_user)]
  else
    match first (fun o => org_userid o =? PermissionForm.context self)
                (Organization_table db) with
    | Some org => [Q_Organization (PermissionForm.context self);
                   Q_Permission_org (PermissionForm.name self) (org_id org)]
    | None => [Q_Organization (PermissionForm.context self)]
    end.

(** The rows of the store agree with the rows the user model returns: an
    owned organization is a row of the organization table, and [userid] and
    [id] are keys of that table. *)
Definition consistent (g_user : User) (db : Store) : Prop :=
  (forall o, In o (organizations_owned g_user) -> In o (Organization_table db))
  /\ NoDup (map org_userid (Organization_table db))
  /\ NoDup (map org_id (Organization_table db)).

(** The form object after the query [q] was issued. *)
Definition logged (q : Query) (s : Form) : Form :=
  mkForm (self_user s) (self_org s) (errors s) (queries s ++ [q]).

(** The errors of a URL field of the client form: a blank value is an error
    only when the field is required, and a value which is not blank must
    match the URL pattern. *)
Definition url_errors (url_match : string -> bool) (required : bool) (data : string)
  : list string :=
  if blank data then (if required then [MissingValue] else [])
  else if url_match data then [] else [MalformedURI].

Definition no_errors (errs : list string) : bool :=
  match errs with
  | [] => true
  | _ => false
  end.

(** Closes a goal which asks for the error list and the form object a field
    validation ends with: the form object decides the error list. *)
Ltac field_result :=
  eexists _, _, _, _; unfold ret;
  apply (f_equal2 pair); [|reflexivity]; reflexivity.

(** The form object [f] holds the resolution of the identifier [ident] for
    the acting user: the user for the own identifier, and otherwise the one
    owned organization which bears it. *)
Definition resolved_as (g_user : User) (ident : string) (f : Form) : Prop :=
  (ident = userid g_user
   /\ self_user f = Some (Some g_user) /\ self_org f = Some None)
  \/ (ident <> userid g_user
      /\ exists o, owns_exactly_one g_user ident o
                   /\ self_user f = Some None /\ self_org f = Some (Some o)).

(** The permission [q] belongs to the context left in [self.user] and
    [self.org]: its user key is that of the resolved user, or its
    organization key is that of the resolved organization. *)
Definition belongs_to_resolved (f : Form) (q : Permission) : Prop :=
  (exists u, resolved_user f = Some u /\ perm_user q = Some u)
  \/ (exists o, resolved_org f = Some o /\ perm_org q = Some o).

(** Exactly one team of the organization has the identifier [ident], and it
    is [team]. *)
Definition exactly_one_team (self : TeamPermissionAssignForm.t) (ident : string)
           (team : TeamPermissionAssignForm.Team) : Prop :=
  exists before after,
    TeamPermissionAssignForm.org_teams self = before ++ team :: after
    /\ TeamPermissionAssignForm.team_userid team = ident
    /\ forall t', In t' (before ++ after) ->
                  TeamPermissionAssignForm.team_userid t' <> ident.

(** The lookups of a name validator which reads the store with the query
    [q]: none for a name which is blank or fails the charset rule. *)
Definition name_lookups (valid_username : string -> bool) (name : string) (q : Query)
  : list Query :=
  if blank name || negb (valid_username name) then [] else [q].

(** A user directory with the single user U, found by identifier. *)
Definition sample_getuser (name : string) : option User :=
  if name =? "user-u" then Some Sample.U else None.

(** The context left in [self.user] and [self.org], as the pair of keys a
    permission row written for it carries. *)
Definition resolved_context (f : Form) : option Z * option Z :=
  (resolved_user f, resolved_org f).

(** A second user, V, who owns organization A together with U. *)
Definition sample_V : User := mkUser 2 "user-v" [Sample.org_A].

Definition sample_V_form (name context : string) : PermissionForm.t :=
  PermissionForm.mk name "Title" "" context ["user-v"; "org-a"] None.

(* ===================================================================== *)
(** ** Lists and lookups                                                   *)
(* ===================================================================== *)

Lemma length_one {A} (l : list A) :
  length l = 1%nat -> exists x, l = [x].
Proof.
  destruct l as [|x [|y l]]; simpl; intro H; try discriminate.
  now exists x.
Qed.

Lemma filter_singleton_split {A} (p : A -> bool) (l : list A) (o : A) :
  filter p l = [o] ->
  exists l1 l2, l = l1 ++ o :: l2 /\ p o = true
                /\ forall x, In x (l1 ++ l2) -> p x = false.
Proof.
  induction l as [|a l IH]; simpl; intro H; [discriminate|].
  destruct (p a) eqn:Ha.
  - injection H as -> Hnil.
    exists [], l. repeat split; auto.
    simpl. intros x Hx.
    destruct (p x) eqn:Hpx; auto.
    assert (In x (filter p l)) by (apply filter_In; auto).
    rewrite Hnil in H. destruct H.
  - destruct (IH H) as (l1 & l2 & -> & Ho & Hrest).
    exists (a :: l1), l2. repeat split; auto.
    simpl. intros x [<-|Hx]; auto.
Qed.

Lemma split_filter_singleton {A} (p : A -> bool) (l1 l2 : list A) (o : A) :
  p o = true ->
  (forall x, In x (l1 ++ l2) -> p x = false) ->
  filter p (l1 ++ o :: l2) = [o].
Proof.
  intros Ho Hrest.
  assert (Hnil : forall l, (forall x, In x l -> p x = false) -> filter p l = []).
  { induction l as [|a l IH]; simpl; intro H; auto.
    rewrite (H a) by auto. apply IH. intros; apply H; auto. }
  rewrite filter_app. simpl. rewrite Ho.
  rewrite (Hnil l1), (Hnil l2); auto; intros; apply Hrest; apply in_or_app; auto.
Qed.

Lemma owned_filter (g_user : User) (ident : string) (o : Organization) :
  owns_exactly_one g_user ident o <->
  filter (fun org => org_userid org =? ident) (organizations_owned g_user) = [o].
Proof.
  split.
  - intros (l1 & l2 & -> & Ho & Hrest).
    apply split_filter_singleton.
    + now apply String.eqb_eq.
    + intros x Hx. apply String.eqb_neq. now apply Hrest.
  - intro H. apply filter_singleton_split in H.
    destruct H as (l1 & l2 & Hl & Ho & Hrest).
    exists l1, l2. repeat split; auto.
    + now apply String.eqb_eq.
    + intros x Hx. apply String.eqb_neq. now apply Hrest.
Qed.

Lemma first_none {A} (p : A -> bool) (l : list A) :
  first p l = None <-> forall x, In x l -> p x = false.
Proof.
  unfold first. split.
  - intros H x Hx. now apply (find_none p l H).
  - induction l as [|a l IH]; simpl; intro H; auto.
    rewrite (H a) by auto. apply IH. intros; apply H; auto.
Qed.

Lemma first_some {A} (p : A -> bool) (l : list A) (x : A) :
  first p l = Some x -> In x l /\ p x = true.
Proof. unfold first. apply find_some. Qed.

Lemma first_app {A} (p : A -> bool) (l1 l2 : list A) :
  first p (l1 ++ l2) = match first p l1 with
                       | Some x => Some x
                       | None => first p l2
                       end.
Proof.
  unfold first. induction l1 as [|a l1 IH]; simpl; auto.
  destruct (p a); auto.
Qed.

(* ===================================================================== *)
(** ** Owner and context resolution                                        *)
(* ===================================================================== *)

Section Resolution.

Variable g_user : User.
Variable ident : string.
Variable s : Form.

Let orgs := filter (fun org => org_userid org =? ident) (organizations_owned g_user).

Lemma validate_client_owner_self :
  ident = userid g_user ->
  RegisterClientForm.validate_client_owner g_user ident s
  = (Ok tt, mkForm (Some (Some g_user)) (Some None) (errors s) (queries s)).
Proof.
  intros ->. unfold RegisterClientForm.validate_client_owner.
  now rewrite String.eqb_refl.
Qed.

Lemma validate_client_owner_org (o : Organization) :
  ident <> userid g_user -> orgs = [o] ->
  RegisterClientForm.validate_client_owner g_user ident s
  = (Ok tt, mkForm (Some None) (Some (Some o)) (errors s)
                   (queries s ++ [Q_organizations_owned (user_id g_user)])).
Proof.
  intros Hne Ho. unfold RegisterClientForm.validate_client_owner.
  apply String.eqb_neq in Hne. rewrite Hne.
  unfold bind, issue. fold orgs. now rewrite Ho.
Qed.

Lemma validate_client_owner_reject :
  ident <> userid g_user -> length orgs <> 1%nat ->
  RegisterClientForm.validate_client_owner g_user ident s
  = (Raise (ValidationError "Invalid owner"),
     mkForm (self_user s) (self_org s) (errors s)
            (queries s ++ [Q_organizations_owned (user_id g_user)])).
Proof.
  intros Hne Hlen. unfold RegisterClientForm.validate_client_owner.
  apply String.eqb_neq in Hne. rewrite Hne.
  unfold bind, issue. fold orgs.
  apply Nat.eqb_neq in Hlen. now rewrite Hlen.
Qed.

Lemma validate_context_self :
  ident = userid g_user ->
  PermissionForm.validate_context g_user ident s
  = (Ok tt, mkForm (Some (Some g_user)) (Some None) (errors s) (queries s)).
Proof.
  intros ->. unfold PermissionForm.validate_context.
  now rewrite String.eqb_refl.
Qed.

Lemma validate_context_org (o : Organization) :
  ident <> userid g_user -> orgs = [o] ->
  PermissionForm.validate_context g_user ident s
  = (Ok tt, mkForm (Some None) (Some (Some o)) (errors s)
                   (queries s ++ [Q_organizations_owned (user_id g_user)])).
Proof.
  intros Hne Ho. unfold PermissionForm.validate_context.
  apply String.eqb_neq in Hne. rewrite Hne.
  unfold bind, issue. fold orgs. now rewrite Ho.
Qed.

Lemma validate_context_reject :
  ident <> userid g_user -> length orgs <> 1%nat ->
  PermissionForm.validate_context g_user ident s
  = (Raise (ValidationError "Invalid context"),
     mkForm (self_user s) (self_org s) (errors s)
            (queries s ++ [Q_organizations_owned (user_id g_user)])).
Proof.
  intros Hne Hlen. unfold PermissionForm.validate_context.
  apply String.eqb_neq in Hne. rewrite Hne.
  unfold bind, issue. fold orgs.
  apply Nat.eqb_neq in Hlen. now rewrite Hlen.
Qed.

Lemma not_exactly_one :
  (forall o, ~ owns_exactly_one g_user ident o) -> length orgs <> 1%nat.
Proof.
  intros Hnone Hlen. destruct (length_one _ Hlen) as [o Ho].
  apply (Hnone o). now apply owned_filter.
Qed.

End Resolution.

(** C1.  Owner and context resolution, for both validators
    ([validate_client_owner] and [validate_context]): an identifier equal to
    the acting user's own [userid] resolves to that user and no
    organization; otherwise, when exactly one owned organization has the
    identifier, it resolves to that organization; otherwise the validator
    raises "Invalid owner" / "Invalid context" and leaves [self.user] and
    [self.org] as they were. *)
Theorem owner_resolution :
  resolves_owner RegisterClientForm.validate_client_owner "Invalid owner"
  /\ resolves_owner PermissionForm.validate_context "Invalid context".
Proof.
  split; intros g_user ident s; repeat split.
  - apply validate_client_owner_self.
  - intros Hne o Ho. apply validate_client_owner_org; auto. now apply owned_filter.
  - intros Hne Hnone. apply validate_client_owner_reject; auto.
    now apply not_exactly_one.
  - apply validate_context_self.
  - intros Hne o Ho. apply validate_context_org; auto. now apply owned_filter.
  - intros Hne Hnone. apply validate_context_reject; auto.
    now apply not_exactly_one.
Qed.

(** The scenario of the spec: U, who owns A and B, resolves A's identifier to
    A, and is rejected for C's. *)
Lemma owner_resolution_witness :
  PermissionForm.validate_context Sample.U "org-a" new_form
  = (Ok tt, mkForm (Some None) (Some (Some Sample.org_A)) []
                   [Q_organizations_owned 1])
  /\ RegisterClientForm.validate_client_owner Sample.U "org-c" new_form
     = (Raise (ValidationError "Invalid owner"),
        mkForm None None [] [Q_organizations_owned 1]).
Proof.
  destruct owner_resolution as [Hclient Hperm].
  split.
  - destruct (Hperm Sample.U "org-a" new_form) as (_ & Horg & _).
    apply Horg.
    + discriminate.
    + exists [], [Sample.org_B]. repeat split.
      simpl. intros o' [<-|[]]. discriminate.
  - destruct (Hclient Sample.U "org-c" new_form) as (_ & _ & Hrej).
    apply Hrej.
    + discriminate.
    + intros o (l1 & l2 & Hl & Ho & _).
      assert (Hin : In o (organizations_owned Sample.U))
        by (rewrite Hl; apply in_or_app; right; left; reflexivity).
      simpl in Hin. destruct Hin as [<-|[<-|[]]]; discriminate.
Defined.

Lemma validate_context_cases (g_user : User) (ident : string) (s : Form) :
  let orgs := filter (fun org => org_userid org =? ident) (organizations_owned g_user) in
  let asked := queries s ++ [Q_organizations_owned (user_id g_user)] in
  (ident = userid g_user
   /\ PermissionForm.validate_context g_user ident s
      = (Ok tt, mkForm (Some (Some g_user)) (Some None) (errors s) (queries s)))
  \/ (ident <> userid g_user /\ exists o, orgs = [o]
      /\ PermissionForm.validate_context g_user ident s
         = (Ok tt, mkForm (Some None) (Some (Some o)) (errors s) asked))
  \/ (ident <> userid g_user /\ length orgs <> 1%nat
      /\ PermissionForm.validate_context g_user ident s
         = (Raise (ValidationError "Invalid context"),
            mkForm (self_user s) (self_org s) (errors s) asked)).
Proof.
  intros orgs asked.
  destruct (String.eqb_spec ident (userid g_user)) as [He|Hne].
  - left. split; auto. now apply validate_context_self.
  - right. destruct (Nat.eq_dec (length orgs) 1) as [Hlen|Hlen].
    + left. split; auto. destruct (length_one _ Hlen) as [o Ho].
      exists o. split; auto. now apply validate_context_org.
    + right. repeat split; auto. now apply validate_context_reject.
Qed.

Lemma validate_client_owner_cases (g_user : User) (ident : string) (s : Form) :
  let orgs := filter (fun org => org_userid org =? ident) (organizations_owned g_user) in
  let asked := queries s ++ [Q_organizations_owned (user_id g_user)] in
  (ident = userid g_user
   /\ RegisterClientForm.validate_client_owner g_user ident s
      = (Ok tt, mkForm (Some (Some g_user)) (Some None) (errors s) (queries s)))
  \/ (ident <> userid g_user /\ exists o, orgs = [o]
      /\ RegisterClientForm.validate_client_owner g_user ident s
         = (Ok tt, mkForm (Some None) (Some (Some o)) (errors s) asked))
  \/ (ident <> userid g_user /\ length orgs <> 1%nat
      /\ RegisterClientForm.validate_client_owner g_user ident s
         = (Raise (ValidationError "Invalid owner"),
            mkForm (self_user s) (self_org s) (errors s) asked)).
Proof.
  intros orgs asked.
  destruct (String.eqb_spec ident (userid g_user)) as [He|Hne].
  - left. split; auto. now apply validate_client_owner_self.
  - right. destruct (Nat.eq_dec (length orgs) 1) as [Hlen|Hlen].
    + left. split; auto. destruct (length_one _ Hlen) as [o Ho].
      exists o. split; auto. now apply validate_client_owner_org.
    + right. repeat split; auto. now apply validate_client_owner_reject.
Qed.

(** C10.  Whenever [validate_client_owner] or [validate_context] returns
    without raising, exactly one of [self.user] and [self.org] holds a row
    and the other is [None], whatever the two attributes held before. *)
Theorem resolved_owner_is_user_or_org :
  forall (g_user : User) (ident : string) (s f : Form),
    RegisterClientForm.validate_client_owner g_user ident s = (Ok tt, f)
    \/ PermissionForm.validate_context g_user ident s = (Ok tt, f) ->
    one_owner f.
Proof.
  intros g_user ident s f [H|H].
  - destruct (validate_client_owner_cases g_user ident s)
      as [(_ & E)|[(_ & o & _ & E)|(_ & _ & E)]];
      rewrite E in H; try discriminate; injection H as <-.
    + left. now exists g_user.
    + right. now exists o.
  - destruct (validate_context_cases g_user ident s)
      as [(_ & E)|[(_ & o & _ & E)|(_ & _ & E)]];
      rewrite E in H; try discriminate; injection H as <-.
    + left. now exists g_user.
    + right. now exists o.
Qed.

Lemma resolved_owner_is_user_or_org_witness :
  one_owner (mkForm (Some None) (Some (Some Sample.org_B)) []
                    [Q_organizations_owned 1]).
Proof.
  apply (resolved_owner_is_user_or_org Sample.U "org-b" new_form).
  right. reflexivity.
Defined.

(* ===================================================================== *)
(** ** Field validation                                                    *)
(* ===================================================================== *)

Lemma assoc_get_set (k k' : string) (v : list string) (l : list (string * list string)) :
  assoc_get k (assoc_set k' v l) = if k' =? k then v else assoc_get k l.
Proof.
  induction l as [|[a b] l IH]; simpl.
  - destruct (k' =? k); reflexivity.
  - destruct (String.eqb_spec a k') as [->|Hak']; simpl.
    + destruct (k' =? k); reflexivity.
    + destruct (String.eqb_spec a k) as [->|Hak].
      * apply String.eqb_neq in Hak'. rewrite String.eqb_sym in Hak'.
        now rewrite Hak'.
      * apply IH.
Qed.

Lemma Form_validate_cons (f : Field) (extra : list Validator)
      (rest : list (Field * list Validator)) (s : Form) :
  Form_validate ((f, extra) :: rest) s
  = match Field_validate f extra s with
    | (Ok ok, s1) =>
        match Form_validate rest s1 with
        | (Ok success, s2) => (Ok (ok && success), s2)
        | (Raise e, s2) => (Raise e, s2)
        end
    | (Raise e, s1) => (Raise e, s1)
    end.
Proof.
  simpl. unfold bind. destruct (Field_validate f extra s) as [[ok|e] s1]; auto.
Qed.

Lemma Field_validate_Required (fname data : string) (s : Form) :
  Field_validate (mkField fname data None [Required]) [] s
  = (Ok (negb (blank data)),
     mkForm (self_user s) (self_org s)
            (assoc_set fname (if blank data then ["This field is required."] else [])
                       (errors s))
            (queries s)).
Proof.
  unfold Field_validate, bind, pre_validate. simpl. unfold Required.
  destruct (blank data); reflexivity.
Qed.

Lemma Field_validate_plain (fname data : string) (s : Form) :
  Field_validate (mkField fname data None []) [] s
  = (Ok true, mkForm (self_user s) (self_org s) (assoc_set fname [] (errors s))
                     (queries s)).
Proof. reflexivity. Qed.

(** The context field of the permission form: blank, resolved, or rejected. *)
Lemma Field_validate_context (g_user : User) (self : PermissionForm.t) (s : Form) :
  exists ok f,
    Field_validate (mkField "context" (PermissionForm.context self)
                            (Some (PermissionForm.context_choices self)) [Required])
                   [PermissionForm.validate_context g_user] s
    = (Ok ok, f)
    /\ queries f = queries s ++ context_queries g_user self
    /\ (forall k, k <> "context" -> assoc_get k (errors f) = assoc_get k (errors s))
    /\ (ok = true -> context_resolved g_user self f).
Proof.
  unfold Field_validate, bind, context_queries, context_resolved. simpl.
  unfold Required at 1.
  destruct (blank (PermissionForm.context self)) eqn:Hblank; simpl.
  - eexists _, _. split; [reflexivity|]. simpl. repeat split.
    + now rewrite app_nil_r.
    + intros k Hk. rewrite assoc_get_set.
      apply not_eq_sym, String.eqb_neq in Hk. now rewrite Hk.
    + discriminate.
  - destruct (validate_context_cases g_user (PermissionForm.context self) s)
      as [(He & E)|[(Hne & o & Ho & E)|(Hne & Hlen & E)]]; rewrite E; simpl.
    + eexists _, _. split; [reflexivity|]. simpl. repeat split.
      * apply String.eqb_eq in He. rewrite He. now rewrite app_nil_r.
      * intros k Hk. rewrite assoc_get_set.
        apply not_eq_sym, String.eqb_neq in Hk. now rewrite Hk.
      * intros _. left. auto.
    + eexists _, _. split; [reflexivity|]. simpl. repeat split.
      * apply String.eqb_neq in Hne. now rewrite Hne.
      * intros k Hk. rewrite assoc_get_set.
        apply not_eq_sym, String.eqb_neq in Hk. now rewrite Hk.
      * intros _. right. split; auto. exists o. repeat split.
        now apply owned_filter.
    + eexists _, _. split; [reflexivity|]. simpl. repeat split.
      * apply String.eqb_neq in Hne. now rewrite Hne.
      * intros k Hk. rewrite assoc_get_set.
        apply not_eq_sym, String.eqb_neq in Hk. now rewrite Hk.
      * destruct (pre_validate _); discriminate.
Qed.

(** The field validators of the permission form never raise; they ask only
    for the owned organizations; and when they accept, the name is not blank,
    [name.errors] is empty and the context is resolved. *)
Lemma PermissionForm_fields_validate (g_user : User) (self : PermissionForm.t) (s : Form) :
  exists rv f,
    Form_validate (PermissionForm.fields g_user self) s = (Ok rv, f)
    /\ queries f = queries s ++ context_queries g_user self
    /\ (rv = true ->
        assoc_get "name" (errors f) = [] /\ context_resolved g_user self f).
Proof.
  unfold PermissionForm.fields.
  rewrite Form_validate_cons, Field_validate_Required.
  rewrite Form_validate_cons, Field_validate_Required.
  rewrite Form_validate_cons, Field_validate_plain.
  rewrite Form_validate_cons.
  match goal with
  | |- context [Field_validate _ _ ?s1] =>
      destruct (Field_validate_context g_user self s1) as (ok & f & E & Hq & Herr & Hres)
  end.
  rewrite E. simpl in *. exists (negb (blank (PermissionForm.name self))
                                  && (negb (blank (PermissionForm.title self))
                                      && (true && (ok && true)))), f.
  split; [reflexivity|]. split; [exact Hq|].
  intro Hrv.
  apply andb_prop in Hrv. destruct Hrv as [Hname Hrv].
  apply andb_prop in Hrv. destruct Hrv as [_ Hrv]. simpl in Hrv.
  rewrite andb_true_r in Hrv. split; auto.
  rewrite Herr by discriminate.
  rewrite !assoc_get_set. simpl.
  apply negb_true_iff in Hname. now rewrite Hname.
Qed.

(* ===================================================================== *)
(** ** PermissionForm.validate                                             *)
(* ===================================================================== *)

Section PermissionValidate.

Variable valid_username : string -> bool.
Variable g_user : User.
Variable db : Store.
Variable self : PermissionForm.t.

Let name := PermissionForm.name self.
Let edit_id := option_map perm_id (PermissionForm.edit_obj self).
Let asked_global := Q_Permission_allusers name.

Lemma first_ext {A} (p q : A -> bool) (l : list A) :
  (forall x, p x = q x) -> first p l = first q l.
Proof.
  intro H. unfold first. induction l as [|a l IH]; simpl; auto.
  rewrite H, IH. reflexivity.
Qed.

(** When the field validators fail, [validate] returns [False] at once. *)
Lemma validate_fields_failed (s f : Form) :
  Form_validate (PermissionForm.fields g_user self) s = (Ok false, f) ->
  PermissionForm.validate valid_username g_user db self s = (Ok false, f).
Proof.
  intro E. unfold PermissionForm.validate, bind. now rewrite E.
Qed.

(** When they pass and the name fails the charset rule, it raises. *)
Lemma validate_invalid_name (s f : Form) :
  Form_validate (PermissionForm.fields g_user self) s = (Ok true, f) ->
  valid_username name = false ->
  PermissionForm.validate valid_username g_user db self s
  = (Raise (ValidationError InvalidName), f).
Proof.
  intros E Hname. unfold PermissionForm.validate, bind. rewrite E. simpl.
  fold name. now rewrite Hname.
Qed.

(** Otherwise the global check runs, and then the scoped check. *)
Lemma validate_after_fields (s f : Form) :
  Form_validate (PermissionForm.fields g_user self) s = (Ok true, f) ->
  valid_username name = true ->
  PermissionForm.validate valid_username g_user db self s
  = if conflicts (option_map perm_id (global_existing db name)) edit_id then
      (Ok false,
       mkForm (self_user f) (self_org f)
              (assoc_set "name" (assoc_get "name" (errors f)
                                 ++ [DuplicateGlobalPermission]) (errors f))
              (queries f ++ [asked_global]))
    else if conflicts (option_map perm_id (scoped_existing g_user db self)) edit_id then
      (Ok false,
       mkForm (self_user f) (self_org f)
              (assoc_set "name" (assoc_get "name" (errors f)
                                 ++ [DuplicateScopedPermission]) (errors f))
              ((queries f ++ [asked_global]) ++ scoped_queries g_user db self))
    else
      (Ok true,
       mkForm (self_user f) (self_org f) (errors f)
              ((queries f ++ [asked_global]) ++ scoped_queries g_user db self)).
Proof.
  intros E Hname. unfold PermissionForm.validate, bind. rewrite E. simpl.
  fold name. rewrite Hname. simpl.
  unfold global_existing, scoped_existing, scoped_queries, scoped_to.
  fold name.
  change (match PermissionForm.edit_obj self with
          | Some o => Some (perm_id o)
          | None => None
          end) with edit_id.
  destruct (conflicts _ edit_id); [reflexivity|].
  destruct (PermissionForm.context self =? userid g_user); simpl.
  - destruct (conflicts _ edit_id); reflexivity.
  - destruct (first _ (Organization_table db)) as [org|]; simpl.
    + destruct (conflicts _ edit_id); simpl; rewrite <- !app_assoc; reflexivity.
    + rewrite (proj2 (first_none _ _)) by (intros; apply andb_false_r).
      simpl. reflexivity.
Qed.

End PermissionValidate.

Lemma scoped_queries_scoped (g_user : User) (db : Store) (self : PermissionForm.t) :
  forallb scoped_lookup (scoped_queries g_user db self) = true.
Proof.
  unfold scoped_queries.
  destruct (PermissionForm.context self =? userid g_user); auto.
  destruct (first _ _); auto.
Qed.

(** C3 (amended).  The order of the steps of [PermissionForm.validate].  The
    field validators run first, and with them the resolution of the context,
    which asks for the organizations the user owns ([context_queries]); the
    charset check comes after them.  A name which fails the charset check
    ends the validation (by [False] when a field validator failed, by the
    exception otherwise) before any lookup of the two conflict checks.  When
    conflict lookups are made, the first is the lookup of the global
    permission, and all that follow belong to the scoped check. *)
Theorem permission_validation_order :
  forall (valid_username : string -> bool) (g_user : User) (db : Store)
         (self : PermissionForm.t) (s : Form),
    let r := PermissionForm.validate valid_username g_user db self s in
    exists conflict_lookups,
      queries (snd r) = queries s ++ context_queries g_user self ++ conflict_lookups
      /\ (valid_username (PermissionForm.name self) = false ->
          conflict_lookups = []
          /\ (fst r = Ok false \/ fst r = Raise (ValidationError InvalidName)))
      /\ (conflict_lookups = []
          \/ exists scoped,
               conflict_lookups
               = Q_Permission_allusers (PermissionForm.name self) :: scoped
               /\ forallb scoped_lookup scoped = true).
Proof.
  intros vu g_user db self s r. subst r.
  destruct (PermissionForm_fields_validate g_user self s) as (rv & f & E & Hq & _).
  destruct rv.
  - destruct (vu (PermissionForm.name self)) eqn:Hname.
    + rewrite (validate_after_fields vu g_user db self s _ E Hname).
      destruct (conflicts _ _).
      * exists [Q_Permission_allusers (PermissionForm.name self)]. simpl.
        rewrite Hq, <- app_assoc. repeat split; try discriminate.
        right. exists []. auto.
      * destruct (conflicts _ _);
          exists (Q_Permission_allusers (PermissionForm.name self)
                  :: scoped_queries g_user db self); simpl;
          rewrite Hq, <- !app_assoc; (repeat split; try discriminate);
          right; eexists; split; eauto using scoped_queries_scoped.
    + rewrite (validate_invalid_name vu g_user db self s _ E Hname).
      exists []. simpl. rewrite Hq, app_nil_r. auto.
  - rewrite (validate_fields_failed vu g_user db self s _ E).
    exists []. simpl. rewrite Hq, app_nil_r. auto.
Qed.

(** A name with a space and capitals, under organization A: the exception is
    raised and no conflict lookup was made. *)
Lemma permission_validation_order_witness :
  let r := PermissionForm.validate utils_valid_username Sample.U Sample.empty_db
             (Sample.permission_form "Bad Name" "org-a" None) new_form in
  exists conflict_lookups,
    queries (snd r) = [Q_organizations_owned 1] ++ conflict_lookups
    /\ conflict_lookups = [].
Proof.
  destruct (permission_validation_order utils_valid_username Sample.U Sample.empty_db
              (Sample.permission_form "Bad Name" "org-a" None) new_form)
    as (qs & Hq & Hbad & _).
  exists qs. split.
  - exact Hq.
  - apply Hbad. reflexivity.
Defined.

(** C3, as stated, fails: with a name that fails the charset check, the
    context was resolved ([self.org] holds organization A) and the owned
    organizations were looked up before the exception. *)
Lemma charset_failure_after_context_lookup :
  PermissionForm.validate utils_valid_username Sample.U Sample.empty_db
    (Sample.permission_form "Bad Name" "org-a" None) new_form
  = (Raise (ValidationError InvalidName),
     mkForm (Some None) (Some (Some Sample.org_A))
            [("name", []); ("title", []); ("description", []); ("context", [])]
            [Q_organizations_owned 1]).
Proof. reflexivity. Qed.

(* ===================================================================== *)
(** ** Global and scoped permission names                                  *)
(* ===================================================================== *)

Lemma conflicts_create (existing : option Permission) :
  conflicts (option_map perm_id existing) None
  = match existing with Some _ => true | None => false end.
Proof. destruct existing; reflexivity. Qed.

Lemma accepted_fields (g_user : User) (self : PermissionForm.t) (s : Form) :
  accepted (Form_validate (PermissionForm.fields g_user self) s) ->
  exists f, Form_validate (PermissionForm.fields g_user self) s = (Ok true, f)
            /\ assoc_get "name" (errors f) = []
            /\ context_resolved g_user self f.
Proof.
  unfold accepted. intro H.
  destruct (PermissionForm_fields_validate g_user self s) as (rv & f & E & _ & Hok).
  rewrite E in H. simpl in H. injection H as ->.
  exists f. destruct Hok; auto.
Qed.

(** C2 (amended).  For a new permission whose fields pass and whose name
    passes the charset check: when no permission of the store has the name,
    the form is accepted; once a global permission with the name exists, the
    form is rejected with "A global permission with that name already
    exists", whatever its context: a scoped permission under an organization
    as well as a second global one. *)
Theorem global_permission_reserves_name :
  forall (valid_username : string -> bool) (g_user : User) (db : Store)
         (self : PermissionForm.t) (s : Form),
    PermissionForm.edit_obj self = None ->
    valid_username (PermissionForm.name self) = true ->
    accepted (Form_validate (PermissionForm.fields g_user self) s) ->
    ((forall q, In q (Permission_table db) ->
                perm_name q <> PermissionForm.name self) ->
     accepted (PermissionForm.validate valid_username g_user db self s))
    /\ ((exists p, In p (Permission_table db)
                   /\ perm_name p = PermissionForm.name self
                   /\ allusers p = true) ->
        rejected (PermissionForm.validate valid_username g_user db self s)
                 "name" DuplicateGlobalPermission).
Proof.
  intros vu g_user db self s Hnew Hname Hfields.
  destruct (accepted_fields _ _ _ Hfields) as (f & E & Herr & _).
  rewrite (validate_after_fields vu g_user db self s _ E Hname).
  rewrite Hnew. simpl option_map at 2 4. rewrite !conflicts_create.
  split.
  - intro Hfree.
    assert (Hnone : forall (p : Permission -> bool),
               first (fun q => (perm_name q =? PermissionForm.name self) && p q)
                     (Permission_table db) = None).
    { intro p. apply first_none. intros q Hq.
      apply Hfree, String.eqb_neq in Hq. now rewrite Hq. }
    unfold global_existing, scoped_existing. rewrite !Hnone. reflexivity.
  - intros (p & Hin & Hp & Hglobal).
    destruct (global_existing db (PermissionForm.name self)) as [e|] eqn:He.
    + split; simpl; auto.
      rewrite assoc_get_set. simpl. now rewrite Herr.
    + unfold global_existing in He.
      pose proof (proj1 (first_none _ _) He p Hin) as Hp'. simpl in Hp'.
      apply String.eqb_eq in Hp. rewrite Hp, Hglobal in Hp'. discriminate.
Qed.

(** The scenario of the spec, on the store which holds a global "admin":
    a scoped "admin" under organization A is rejected. *)
Lemma global_permission_reserves_name_witness :
  rejected (PermissionForm.validate utils_valid_username Sample.U Sample.db_global_admin
              (Sample.permission_form "admin" "org-a" None) new_form)
           "name" DuplicateGlobalPermission.
Proof.
  apply (global_permission_reserves_name utils_valid_username Sample.U
           Sample.db_global_admin (Sample.permission_form "admin" "org-a" None)
           new_form); try reflexivity.
  exists Sample.global_admin. repeat split. left. reflexivity.
Defined.

(** C2, as stated, fails: after the global "admin", the scoped "admin" under
    organization A does not succeed. *)
Lemma scoped_admin_after_global_admin_rejected :
  PermissionForm.validate utils_valid_username Sample.U Sample.db_global_admin
    (Sample.permission_form "admin" "org-a" None) new_form
  = (Ok false,
     mkForm (Some None) (Some (Some Sample.org_A))
            [("name", [DuplicateGlobalPermission]); ("title", []);
             ("description", []); ("context", [])]
            [Q_organizations_owned 1; Q_Permission_allusers "admin"]).
Proof. reflexivity. Qed.

Lemma NoDup_map_eq {A B} (f : A -> B) (l : list A) (a b : A) :
  NoDup (map f l) -> In a l -> In b l -> f a = f b -> a = b.
Proof.
  induction l as [|x l IH]; simpl; intros Hnd Ha Hb Hf; [destruct Ha|].
  inversion Hnd as [|? ? Hnotin Hnd']; subst.
  destruct Ha as [->|Ha], Hb as [->|Hb]; auto.
  - exfalso. apply Hnotin. rewrite Hf. now apply in_map.
  - exfalso. apply Hnotin. rewrite <- Hf. now apply in_map.
Qed.

(** Under the consistency of the store, the organization table returns, for
    the identifier of an owned organization, that organization. *)
Lemma owned_org_lookup (g_user : User) (db : Store) (ident : string) (o : Organization) :
  consistent g_user db ->
  owns_exactly_one g_user ident o ->
  first (fun o' => org_userid o' =? ident) (Organization_table db) = Some o.
Proof.
  intros (Hsub & Hident & _) (l1 & l2 & Hl & Ho & _).
  assert (Hin : In o (Organization_table db)).
  { apply Hsub. rewrite Hl. apply in_or_app. right. now left. }
  destruct (first _ (Organization_table db)) as [o'|] eqn:E.
  - apply first_some in E. destruct E as [Hin' Ho'].
    apply String.eqb_eq in Ho'.
    f_equal. apply (NoDup_map_eq org_userid _ _ _ Hident Hin' Hin). congruence.
  - pose proof (proj1 (first_none _ _) E o Hin) as Hno. simpl in Hno.
    apply String.eqb_neq in Hno. contradiction.
Qed.

Section AcceptedPermission.

Variable valid_username : string -> bool.
Variable g_user : User.

(** What an accepted new permission tells: the fields passed, the name is
    valid, and neither lookup found a row. *)
Lemma accepted_new_permission (db : Store) (self : PermissionForm.t) (s : Form) :
  PermissionForm.edit_obj self = None ->
  accepted (PermissionForm.validate valid_username g_user db self s) ->
  exists f,
    Form_validate (PermissionForm.fields g_user self) s = (Ok true, f)
    /\ valid_username (PermissionForm.name self) = true
    /\ global_existing db (PermissionForm.name self) = None
    /\ scoped_existing g_user db self = None
    /\ assoc_get "name" (errors f) = []
    /\ context_resolved g_user self f
    /\ self_user (snd (PermissionForm.validate valid_username g_user db self s))
       = self_user f
    /\ self_org (snd (PermissionForm.validate valid_username g_user db self s))
       = self_org f.
Proof.
  intros Hnew. unfold accepted.
  destruct (PermissionForm_fields_validate g_user self s) as (rv & f & E & _ & Hok).
  destruct rv.
  - destruct (Hok eq_refl) as [Herr Hres].
    destruct (valid_username (PermissionForm.name self)) eqn:Hname.
    + rewrite (validate_after_fields valid_username g_user db self s _ E Hname).
      rewrite Hnew. simpl option_map at 2 4. rewrite !conflicts_create.
      destruct (global_existing db _); [discriminate|].
      destruct (scoped_existing g_user db self); [discriminate|].
      intros _. exists f. simpl. repeat split; auto.
    + rewrite (validate_invalid_name valid_username g_user db self s _ E Hname).
      discriminate.
  - rewrite (validate_fields_failed valid_username g_user db self s _ E).
    discriminate.
Qed.

Lemma global_existing_add (p : Permission) (db : Store) (name : string) :
  global_existing (add_permission p db) name
  = match global_existing db name with
    | Some x => Some x
    | None => if (perm_name p =? name) && allusers p then Some p else None
    end.
Proof.
  unfold global_existing, add_permission. simpl. rewrite first_app. reflexivity.
Qed.

Lemma scoped_existing_add (p : Permission) (db : Store) (self : PermissionForm.t) :
  scoped_existing g_user (add_permission p db) self
  = match scoped_existing g_user db self with
    | Some x => Some x
    | None =>
        if (perm_name p =? PermissionForm.name self)
           && scoped_to g_user db (PermissionForm.context self) p
        then Some p else None
    end.
Proof.
  unfold scoped_existing, add_permission. simpl. rewrite first_app. reflexivity.
Qed.

(** The row written for an accepted form belongs to the form's context. *)
Lemma created_in_context (db : Store) (self : PermissionForm.t) (f f' : Form)
      (key : Z) (name : string) :
  consistent g_user db ->
  context_resolved g_user self f ->
  self_user f' = self_user f -> self_org f' = self_org f ->
  scoped_to g_user db (PermissionForm.context self) (new_permission key name f') = true.
Proof.
  intros Hdb Hres Hu Ho. unfold scoped_to, new_permission, resolved_user, resolved_org.
  rewrite Hu, Ho. simpl.
  destruct Hres as [(Hc & -> & ->)|(Hc & o & Hown & -> & ->)].
  - rewrite Hc, String.eqb_refl. simpl. apply Z.eqb_refl.
  - apply String.eqb_neq in Hc. rewrite Hc.
    rewrite (owned_org_lookup _ _ _ _ Hdb Hown). simpl. apply Z.eqb_refl.
Qed.

(** It does not belong to a context with another identifier. *)
Lemma created_not_in_other_context (db : Store) (self : PermissionForm.t)
      (f f' : Form) (key : Z) (name other : string) :
  consistent g_user db ->
  context_resolved g_user self f ->
  self_user f' = self_user f -> self_org f' = self_org f ->
  other <> PermissionForm.context self ->
  scoped_to g_user db other (new_permission key name f') = false.
Proof.
  intros Hdb Hres Hu Ho Hother.
  unfold scoped_to, new_permission, resolved_user, resolved_org.
  rewrite Hu, Ho. simpl.
  destruct Hres as [(Hc & -> & ->)|(Hc & o & Hown & -> & ->)]; simpl.
  - rewrite <- Hc. apply String.eqb_neq in Hother. rewrite Hother.
    destruct (first _ _); reflexivity.
  - destruct (other =? userid g_user); [reflexivity|].
    destruct (first _ (Organization_table db)) as [o2|] eqn:E; [|reflexivity].
    apply first_some in E. destruct E as [Hin2 Ho2]. apply String.eqb_eq in Ho2.
    apply Z.eqb_neq. intro Hid.
    destruct Hdb as (Hsub & _ & Hkeys).
    destruct Hown as (l1 & l2 & Hl & Hident & _).
    assert (Hin : In o (Organization_table db)).
    { apply Hsub. rewrite Hl. apply in_or_app. right. now left. }
    assert (o = o2) by (apply (NoDup_map_eq org_id _ _ _ Hkeys Hin Hin2 Hid)).
    subst o2. congruence.
Qed.

End AcceptedPermission.

Lemma key_is_true (k : option Z) (i : Z) : key_is k i = true <-> k = Some i.
Proof.
  destruct k as [j|]; simpl.
  - rewrite Z.eqb_eq. split; congruence.
  - split; discriminate.
Qed.

(** Under the consistency of the store, the scoped check of [validate] looks
    under the very context the field validators resolved. *)
Lemma scoped_to_resolved (g_user : User) (db : Store) (self : PermissionForm.t)
      (f : Form) (q : Permission) :
  consistent g_user db ->
  context_resolved g_user self f ->
  scoped_to g_user db (PermissionForm.context self) q = true
  <-> belongs_to_resolved f q.
Proof.
  intros Hdb Hres. unfold scoped_to, belongs_to_resolved, resolved_user, resolved_org.
  destruct Hres as [(Hc & -> & ->)|(Hc & o & Hown & -> & ->)].
  - rewrite Hc, String.eqb_refl, key_is_true. split.
    + intro H. left. eauto.
    + intros [(u & Hu & Hq)|(o & Ho & _)]; congruence.
  - apply String.eqb_neq in Hc. rewrite Hc.
    rewrite (owned_org_lookup _ _ _ _ Hdb Hown), key_is_true. split.
    + intro H. right. eauto.
    + intros [(u & Hu & _)|(o' & Ho & Hq)]; congruence.
Qed.

(** The two keys of a resolved context: a user and no organization, or an
    organization and no user. *)
Lemma resolved_context_shape (g_user : User) (self : PermissionForm.t) (f : Form) :
  context_resolved g_user self f ->
  resolved_context f = (Some (user_id g_user), None)
  \/ exists o, resolved_context f = (None, Some (org_id o)).
Proof.
  unfold resolved_context, resolved_user, resolved_org.
  intros [(_ & -> & ->)|(_ & o & _ & -> & ->)]; [left|right; exists o]; reflexivity.
Qed.

(** [validate] leaves the resolution of the field validators in place,
    whatever it returns. *)
Lemma validate_keeps_resolution (valid_username : string -> bool) (g_user : User)
      (db : Store) (self : PermissionForm.t) (s : Form) :
  resolved_context (snd (PermissionForm.validate valid_username g_user db self s))
  = resolved_context (snd (Form_validate (PermissionForm.fields g_user self) s)).
Proof.
  destruct (PermissionForm_fields_validate g_user self s) as (rv & f & E & _ & _).
  rewrite E. destruct rv.
  - destruct (valid_username (PermissionForm.name self)) eqn:Hname.
    + rewrite (validate_after_fields valid_username g_user db self s _ E Hname).
      destruct (conflicts _ _); [reflexivity|].
      destruct (conflicts _ _); reflexivity.
    + now rewrite (validate_invalid_name valid_username g_user db self s _ E Hname).
  - now rewrite (validate_fields_failed valid_username g_user db self s _ E).
Qed.

(** A row belongs to a resolved context exactly when it carries its keys. *)
Lemma belongs_to_created (g_user : User) (self : PermissionForm.t) (f : Form)
      (q : Permission) :
  context_resolved g_user self f ->
  (exists g' self' f', context_resolved g' self' f'
                       /\ (perm_user q, perm_org q) = resolved_context f') ->
  belongs_to_resolved f q <-> (perm_user q, perm_org q) = resolved_context f.
Proof.
  intros Hres (g' & self' & f' & Hres' & Hq).
  apply resolved_context_shape in Hres. apply resolved_context_shape in Hres'.
  unfold belongs_to_resolved.
  unfold resolved_context in *.
  destruct Hres as [Hf|(o & Hf)], Hres' as [Hf'|(o' & Hf')];
    rewrite Hf' in Hq; injection Hq as Hqu Hqo;
    injection Hf as Hfu Hfo; rewrite Hfu, Hfo, Hqu, Hqo; split.
  all: first
         [ intros [(u & Hu & Hu')|(x & Hx & Hx')]; congruence
         | intro H; try discriminate; injection H as H;
           first [ left; eexists; split; [reflexivity|congruence]
                 | right; eexists; split; [reflexivity|congruence] ] ].
Qed.

(** C5.  Scoped permission names.  Take a store, an acting user it is
    consistent with, and a new permission which the form accepts; write it as
    a scoped permission of the context the form resolved.  Then, for every
    acting user the store is consistent with (the same one, another owner of
    the same organization, or any other user) and every form for a new
    permission of the same name: when it resolves to the same context and its
    fields pass, it is rejected with "You have another permission with the
    same name"; when it resolves to another context and was accepted before
    the write, it is accepted after it. *)
Theorem scoped_permission_unique :
  forall (valid_username : string -> bool) (g1 : User) (db : Store)
         (self1 : PermissionForm.t) (s1 : Form) (key : Z),
    consistent g1 db ->
    PermissionForm.edit_obj self1 = None ->
    accepted (PermissionForm.validate valid_username g1 db self1 s1) ->
    let f1 := snd (PermissionForm.validate valid_username g1 db self1 s1) in
    let db' := add_permission (new_permission key (PermissionForm.name self1) f1) db in
    forall (g2 : User) (self2 : PermissionForm.t) (s2 : Form),
      consistent g2 db ->
      PermissionForm.edit_obj self2 = None ->
      PermissionForm.name self2 = PermissionForm.name self1 ->
      let r2 := PermissionForm.validate valid_username g2 db' self2 s2 in
      (accepted (Form_validate (PermissionForm.fields g2 self2) s2) ->
       resolved_context (snd r2) = resolved_context f1 ->
       rejected r2 "name" DuplicateScopedPermission)
      /\ (accepted (PermissionForm.validate valid_username g2 db self2 s2) ->
          resolved_context (snd r2) <> resolved_context f1 ->
          accepted r2).
Proof.
  intros vu g1 db self1 s1 key Hdb1 Hnew1 Hacc1 f1 db' g2 self2 s2 Hdb2 Hnew2 Hsame r2.
  destruct (accepted_new_permission _ _ _ _ _ Hnew1 Hacc1)
    as (f1' & E1 & Hname1 & Hg1 & _ & _ & Hres1 & Hu1 & Ho1).
  fold f1 in Hu1, Ho1.
  assert (Hctx1 : resolved_context f1 = resolved_context f1')
    by (unfold resolved_context, resolved_user, resolved_org; now rewrite Hu1, Ho1).
  set (created := new_permission key (PermissionForm.name self1) f1) in *.
  assert (Hname2 : vu (PermissionForm.name self2) = true) by now rewrite Hsame.
  assert (Hglobal : global_existing db' (PermissionForm.name self2) = None).
  { unfold db'. rewrite global_existing_add, Hsame, Hg1. simpl.
    now rewrite andb_false_r. }
  assert (Hmine : forall f2, context_resolved g2 self2 f2 ->
             scoped_to g2 db (PermissionForm.context self2) created = true
             <-> resolved_context f2 = resolved_context f1).
  { intros f2 Hres2.
    rewrite (scoped_to_resolved g2 db self2 f2 created Hdb2 Hres2).
    rewrite (belongs_to_created g2 self2 f2 created Hres2).
    - change (perm_user created, perm_org created) with (resolved_context f1).
      split; intro H; now symmetry.
    - exists g1, self1, f1'. split; [exact Hres1|exact Hctx1]. }
  assert (Hkeep : resolved_context (snd r2)
                  = resolved_context
                      (snd (Form_validate (PermissionForm.fields g2 self2) s2)))
    by apply validate_keeps_resolution.
  split.
  - intros Hfields Hctx.
    destruct (accepted_fields _ _ _ Hfields) as (f2 & E2 & Herr2 & Hres2).
    rewrite Hkeep, E2 in Hctx. simpl in Hctx.
    unfold r2. rewrite (validate_after_fields vu g2 db' self2 s2 _ E2 Hname2).
    rewrite Hnew2. simpl option_map at 2 4. rewrite !conflicts_create, Hglobal.
    assert (Hfound : exists e, scoped_existing g2 db' self2 = Some e).
    { unfold db'. rewrite scoped_existing_add.
      destruct (scoped_existing g2 db self2) as [e|]; [now exists e|].
      rewrite (proj2 (Hmine f2 Hres2) Hctx).
      unfold created at 1. simpl. rewrite Hsame, String.eqb_refl. simpl.
      now exists created. }
    destruct Hfound as [e ->]. split; simpl; auto.
    rewrite assoc_get_set. simpl. now rewrite Herr2.
  - intros Hacc2 Hctx.
    destruct (accepted_new_permission _ _ _ _ _ Hnew2 Hacc2)
      as (f2 & E2 & _ & _ & Hs2 & _ & Hres2 & _ & _).
    rewrite Hkeep, E2 in Hctx. simpl in Hctx.
    unfold r2. rewrite (validate_after_fields vu g2 db' self2 s2 _ E2 Hname2).
    rewrite Hnew2. simpl option_map at 2 4. rewrite !conflicts_create, Hglobal.
    assert (Hfree : scoped_existing g2 db' self2 = None).
    { unfold db'. rewrite scoped_existing_add, Hs2.
      destruct (scoped_to g2 db (PermissionForm.context self2) created) eqn:Hto.
      - exfalso. apply Hctx. now apply (Hmine f2 Hres2).
      - now rewrite andb_false_r. }
    rewrite Hfree. reflexivity.
Qed.

Lemma sample_consistent : consistent Sample.U Sample.empty_db.
Proof.
  repeat split.
  - simpl. intros o [<-|[<-|[]]]; auto.
  - simpl. repeat constructor; simpl; intuition discriminate.
  - simpl. repeat constructor; simpl; intuition discriminate.
Qed.

Lemma sample_V_consistent : consistent sample_V Sample.empty_db.
Proof.
  repeat split.
  - simpl. intros o [<-|[]]; auto.
  - simpl. repeat constructor; simpl; intuition discriminate.
  - simpl. repeat constructor; simpl; intuition discriminate.
Qed.

(** U writes "admin" for himself: U is refused a second one, and V may still
    have his own.  U writes "admin" for organization A: V, who owns A as
    well, is refused a second one, and U may still have one for B. *)
Lemma scoped_permission_unique_witness :
  let db_user := add_permission (mkPermission 41 "admin" false (Some 1%Z) None)
                                Sample.empty_db in
  let db_org := add_permission (mkPermission 41 "admin" false None (Some 11%Z))
                               Sample.empty_db in
  (rejected (PermissionForm.validate utils_valid_username Sample.U db_user
               (Sample.permission_form "admin" "user-u" None) new_form)
            "name" DuplicateScopedPermission
   /\ accepted (PermissionForm.validate utils_valid_username sample_V db_user
                  (sample_V_form "admin" "user-v") new_form))
  /\ (rejected (PermissionForm.validate utils_valid_username sample_V db_org
                  (sample_V_form "admin" "org-a") new_form)
               "name" DuplicateScopedPermission
      /\ accepted (PermissionForm.validate utils_valid_username Sample.U db_org
                     (Sample.permission_form "admin" "org-b" None) new_form)).
Proof.
  intros db_user db_org.
  pose proof (scoped_permission_unique utils_valid_username Sample.U Sample.empty_db
                (Sample.permission_form "admin" "user-u" None) new_form 41
                sample_consistent eq_refl eq_refl) as Huser.
  pose proof (scoped_permission_unique utils_valid_username Sample.U Sample.empty_db
                (Sample.permission_form "admin" "org-a" None) new_form 41
                sample_consistent eq_refl eq_refl) as Horg.
  split; split.
  - apply (Huser Sample.U (Sample.permission_form "admin" "user-u" None) new_form
                 sample_consistent eq_refl eq_refl); reflexivity.
  - apply (Huser sample_V (sample_V_form "admin" "user-v") new_form
                 sample_V_consistent eq_refl eq_refl); [reflexivity|discriminate].
  - apply (Horg sample_V (sample_V_form "admin" "org-a") new_form
                sample_V_consistent eq_refl eq_refl); reflexivity.
  - apply (Horg Sample.U (Sample.permission_form "admin" "org-b" None) new_form
                sample_consistent eq_refl eq_refl); [reflexivity|discriminate].
Defined.

(* ===================================================================== *)
(** ** Resource and action names                                           *)
(* ===================================================================== *)

Lemma id_differs_false (i : Z) (edit_id : option Z) :
  id_differs i edit_id = false <-> edit_id = Some i.
Proof.
  destruct edit_id as [j|]; simpl.
  - rewrite negb_false_iff, Z.eqb_eq. split; congruence.
  - split; discriminate.
Qed.

Lemma id_differs_true (i : Z) (edit_id : option Z) :
  id_differs i edit_id = true <-> edit_id <> Some i.
Proof.
  rewrite <- id_differs_false. destruct (id_differs i edit_id); split; congruence.
Qed.

Section ResourceNames.

Variable valid_username : string -> bool.
Variable db : Store.

Lemma Resource_validate_name_ok (self : ResourceForm.t) (data : string) (s : Form) :
  valid_username data = true ->
  (forall r, In r (Resource_table db) -> res_name r = data ->
             ResourceForm.edit_id self = Some (res_id r)) ->
  ResourceForm.validate_name valid_username db self data s
  = (Ok tt, logged (Q_Resource data) s).
Proof.
  intros Hname Hself. unfold ResourceForm.validate_name, bind, issue.
  rewrite Hname. simpl.
  destruct (first _ (Resource_table db)) as [r|] eqn:E; simpl; [|reflexivity].
  apply first_some in E. destruct E as [Hin Hr]. apply String.eqb_eq in Hr.
  rewrite (proj2 (id_differs_false _ _) (Hself r Hin Hr)). reflexivity.
Qed.

Lemma Resource_validate_name_duplicate (self : ResourceForm.t) (data : string) (s : Form) :
  valid_username data = true ->
  (exists r, In r (Resource_table db) /\ res_name r = data) ->
  (forall r, In r (Resource_table db) -> res_name r = data ->
             ResourceForm.edit_id self <> Some (res_id r)) ->
  ResourceForm.validate_name valid_username db self data s
  = (Raise (ValidationError DuplicateResource), logged (Q_Resource data) s).
Proof.
  intros Hname (r0 & Hin0 & Hr0) Hother.
  unfold ResourceForm.validate_name, bind, issue. rewrite Hname. simpl.
  destruct (first _ (Resource_table db)) as [r|] eqn:E; simpl.
  - apply first_some in E. destruct E as [Hin Hr]. apply String.eqb_eq in Hr.
    rewrite (proj2 (id_differs_true _ _) (Hother r Hin Hr)). reflexivity.
  - pose proof (proj1 (first_none _ _) E r0 Hin0) as Hno. simpl in Hno.
    apply String.eqb_neq in Hno. contradiction.
Qed.

Lemma Action_validate_name_ok (self : ResourceActionForm.t) (data : string) (s : Form) :
  let resource := res_id (ResourceActionForm.edit_resource self) in
  valid_username data = true ->
  (forall a, In a (ResourceAction_table db) ->
             act_name a = data -> act_resource a = resource ->
             ResourceActionForm.edit_id self = Some (act_id a)) ->
  ResourceActionForm.validate_name valid_username db self data s
  = (Ok tt, logged (Q_ResourceAction data resource) s).
Proof.
  intros resource Hname Hself. unfold ResourceActionForm.validate_name, bind, issue.
  rewrite Hname. simpl.
  destruct (first _ (ResourceAction_table db)) as [a|] eqn:E; simpl; [|reflexivity].
  apply first_some in E. destruct E as [Hin Ha].
  apply andb_prop in Ha. destruct Ha as [Ha Hr].
  apply String.eqb_eq in Ha. apply Z.eqb_eq in Hr.
  rewrite (proj2 (id_differs_false _ _) (Hself a Hin Ha Hr)). reflexivity.
Qed.

Lemma Action_validate_name_duplicate (self : ResourceActionForm.t) (data : string)
      (s : Form) :
  let resource := res_id (ResourceActionForm.edit_resource self) in
  valid_username data = true ->
  (exists a, In a (ResourceAction_table db)
             /\ act_name a = data /\ act_resource a = resource) ->
  (forall a, In a (ResourceAction_table db) ->
             act_name a = data -> act_resource a = resource ->
             ResourceActionForm.edit_id self <> Some (act_id a)) ->
  ResourceActionForm.validate_name valid_username db self data s
  = (Raise (ValidationError DuplicateAction),
     logged (Q_ResourceAction data resource) s).
Proof.
  intros resource Hname (a0 & Hin0 & Ha0 & Hr0) Hother.
  unfold ResourceActionForm.validate_name, bind, issue. rewrite Hname. simpl.
  destruct (first _ (ResourceAction_table db)) as [a|] eqn:E; simpl.
  - apply first_some in E. destruct E as [Hin Ha].
    apply andb_prop in Ha. destruct Ha as [Ha Hr].
    apply String.eqb_eq in Ha. apply Z.eqb_eq in Hr.
    rewrite (proj2 (id_differs_true _ _) (Hother a Hin Ha Hr)). reflexivity.
  - pose proof (proj1 (first_none _ _) E a0 Hin0) as Hno. simpl in Hno.
    apply String.eqb_eq in Ha0. apply Z.eqb_eq in Hr0.
    fold resource in Hno. rewrite Ha0, Hr0 in Hno. discriminate.
Qed.

End ResourceNames.

(** C6 (amended).  Editing a row under its own key and with its name
    unchanged raises no conflict with the row itself, for permissions,
    resources and actions alike: when every row which bears the name in the
    scope of the check (for a permission: every global row, and every row of
    the form's context) is the edited row itself, the uniqueness checks pass.
    The name is taken to pass the charset check and, for the permission form,
    the fields to pass their validators.  The exclusion does not reach other
    rows: a permission whose name is also borne by global permissions, none
    of them the edited row, is refused with "A global permission with that
    name already exists" even under its own key. *)
Theorem self_edit_no_conflict :
  forall (valid_username : string -> bool) (db : Store),
    (forall (g_user : User) (self : PermissionForm.t) (s : Form) (p : Permission),
        In p (Permission_table db) ->
        PermissionForm.edit_obj self = Some p ->
        PermissionForm.name self = perm_name p ->
        valid_username (perm_name p) = true ->
        accepted (Form_validate (PermissionForm.fields g_user self) s) ->
        (forall q, In q (Permission_table db) -> perm_name q = perm_name p ->
                   allusers q = true
                   \/ scoped_to g_user db (PermissionForm.context self) q = true ->
                   perm_id q = perm_id p) ->
        accepted (PermissionForm.validate valid_username g_user db self s))
    /\ (forall (self : ResourceForm.t) (s : Form) (r : Resource),
           In r (Resource_table db) ->
           ResourceForm.edit_id self = Some (res_id r) ->
           valid_username (res_name r) = true ->
           (forall r', In r' (Resource_table db) -> res_name r' = res_name r ->
                       res_id r' = res_id r) ->
           ResourceForm.validate_name valid_username db self (res_name r) s
           = (Ok tt, logged (Q_Resource (res_name r)) s))
    /\ (forall (self : ResourceActionForm.t) (s : Form) (a : ResourceAction),
           In a (ResourceAction_table db) ->
           ResourceActionForm.edit_id self = Some (act_id a) ->
           res_id (ResourceActionForm.edit_resource self) = act_resource a ->
           valid_username (act_name a) = true ->
           (forall a', In a' (ResourceAction_table db) ->
                       act_name a' = act_name a ->
                       act_resource a' = act_resource a ->
                       act_id a' = act_id a) ->
           ResourceActionForm.validate_name valid_username db self (act_name a) s
           = (Ok tt, logged (Q_ResourceAction (act_name a) (act_resource a)) s))
    /\ (forall (g_user : User) (self : PermissionForm.t) (s : Form) (p : Permission),
           In p (Permission_table db) ->
           PermissionForm.edit_obj self = Some p ->
           PermissionForm.name self = perm_name p ->
           valid_username (perm_name p) = true ->
           accepted (Form_validate (PermissionForm.fields g_user self) s) ->
           (exists q, In q (Permission_table db)
                      /\ perm_name q = perm_name p /\ allusers q = true) ->
           (forall q, In q (Permission_table db) -> perm_name q = perm_name p ->
                      allusers q = true -> perm_id q <> perm_id p) ->
           rejected (PermissionForm.validate valid_username g_user db self s)
                    "name" DuplicateGlobalPermission).
Proof.
  intros vu db. split; [|split; [|split]].
  - intros g_user self s p _ Hedit Hsame Hname Hfields Hkey.
    destruct (accepted_fields _ _ _ Hfields) as (f & E & _ & _).
    rewrite <- Hsame in Hname.
    rewrite (validate_after_fields vu g_user db self s _ E Hname).
    rewrite Hedit. simpl option_map at 2 4.
    assert (Hglobal : conflicts (option_map perm_id
                                   (global_existing db (PermissionForm.name self)))
                                (Some (perm_id p)) = false).
    { destruct (global_existing db _) as [q|] eqn:Eq; [|reflexivity].
      apply first_some in Eq. destruct Eq as [Hin Hq].
      apply andb_prop in Hq. destruct Hq as [Hq Hall]. apply String.eqb_eq in Hq.
      apply (proj2 (id_differs_false (perm_id q) (Some (perm_id p)))).
      f_equal. symmetry.
      apply Hkey; auto. congruence. }
    assert (Hscoped : conflicts (option_map perm_id (scoped_existing g_user db self))
                                (Some (perm_id p)) = false).
    { destruct (scoped_existing g_user db self) as [q|] eqn:Eq; [|reflexivity].
      apply first_some in Eq. destruct Eq as [Hin Hq].
      apply andb_prop in Hq. destruct Hq as [Hq Hctx]. apply String.eqb_eq in Hq.
      apply (proj2 (id_differs_false (perm_id q) (Some (perm_id p)))).
      f_equal. symmetry.
      apply Hkey; auto. congruence. }
    rewrite Hglobal, Hscoped. reflexivity.
  - intros self s r _ Hedit Hname Hkey.
    apply Resource_validate_name_ok; auto.
    intros r' Hin Hr'. rewrite Hedit. f_equal. symmetry. now apply Hkey.
  - intros self s a _ Hedit Hres Hname Hkey.
    rewrite <- Hres.
    apply Action_validate_name_ok; auto.
    intros a' Hin Ha' Hr'. rewrite Hedit. f_equal. symmetry.
    apply Hkey; auto. congruence.
  - intros g_user self s p _ Hedit Hsame Hname Hfields (q0 & Hin0 & Hq0 & Hall0) Hothers.
    destruct (accepted_fields _ _ _ Hfields) as (f & E & Herr & _).
    rewrite <- Hsame in Hname.
    rewrite (validate_after_fields vu g_user db self s _ E Hname).
    rewrite Hedit.
    destruct (global_existing db (PermissionForm.name self)) as [e|] eqn:Eg.
    + apply first_some in Eg. destruct Eg as [Hin He].
      apply andb_prop in He. destruct He as [He Hall]. apply String.eqb_eq in He.
      assert (Hc : conflicts (option_map perm_id (Some e))
                             (option_map perm_id (Some p)) = true).
      { apply (proj2 (id_differs_true (perm_id e) (Some (perm_id p)))).
        intro Hid. injection Hid as Hid.
        apply (Hothers e Hin); congruence. }
      rewrite Hc. split; auto. simpl.
      rewrite assoc_get_set. simpl. now rewrite Herr.
    + exfalso.
      pose proof (proj1 (first_none _ _) Eg q0 Hin0) as Hno. simpl in Hno.
      rewrite Hsame in Hno. apply String.eqb_eq in Hq0.
      rewrite Hq0, Hall0 in Hno. discriminate.
Qed.

(** The scoped "admin" of organization A, the resource "billing" and its
    action "read", each edited under its own key. *)
Lemma self_edit_no_conflict_witness :
  let admin_A := mkPermission 41 "admin" false None (Some 11%Z) in
  let read_billing := mkResourceAction 51 "read" 21 in
  let db := add_action read_billing (add_permission admin_A Sample.empty_db) in
  accepted (PermissionForm.validate utils_valid_username Sample.U db
              (Sample.permission_form "admin" "org-a" (Some admin_A)) new_form)
  /\ ResourceForm.validate_name utils_valid_username db
       (ResourceForm.mk "billing" "Billing" "" false true (Some 21%Z))
       "billing" new_form
     = (Ok tt, logged (Q_Resource "billing") new_form)
  /\ ResourceActionForm.validate_name utils_valid_username db
       (Sample.action_form "read" Sample.billing (Some 51%Z)) "read" new_form
     = (Ok tt, logged (Q_ResourceAction "read" 21) new_form).
Proof.
  intros admin_A read_billing db.
  destruct (self_edit_no_conflict utils_valid_username db)
    as (Hperm & Hres & Hact & _).
  split; [|split].
  - apply (Hperm Sample.U _ new_form admin_A); try reflexivity.
    + left. reflexivity.
    + intros q [<-|[]] _ _. reflexivity.
  - apply (Hres (ResourceForm.mk "billing" "Billing" "" false true (Some 21%Z))
                new_form Sample.billing); try reflexivity.
    + left. reflexivity.
    + intros r' [<-|[<-|[]]] Hname; [reflexivity|discriminate].
  - apply (Hact (Sample.action_form "read" Sample.billing (Some 51%Z))
                new_form read_billing); try reflexivity.
    + left. reflexivity.
    + intros a' [<-|[]] _ _. reflexivity.
Defined.

(** C6, as stated, fails: the store holds the global "admin" (key 31) and the
    scoped "admin" of organization A (key 41); the scoped one, edited under
    its own key and with its name unchanged, is refused by the global
    check. *)
Lemma self_edit_blocked_by_global_permission :
  PermissionForm.validate utils_valid_username Sample.U
    (add_permission (mkPermission 41 "admin" false None (Some 11%Z))
                    Sample.db_global_admin)
    (Sample.permission_form "admin" "org-a"
       (Some (mkPermission 41 "admin" false None (Some 11%Z))))
    new_form
  = (Ok false,
     mkForm (Some None) (Some (Some Sample.org_A))
            [("name", [DuplicateGlobalPermission]); ("title", []);
             ("description", []); ("context", [])]
            [Q_organizations_owned 1; Q_Permission_allusers "admin"]).
Proof. reflexivity. Qed.

(** C7.  Action names are unique per resource.  A name which passes the
    charset check is accepted when the actions bearing it all belong to other
    resources; it is refused with "An action with that name already exists
    for this resource" when an action of the same resource bears it and no
    such action has the key [edit_id]. *)
Theorem action_name_unique_per_resource :
  forall (valid_username : string -> bool) (db : Store)
         (self : ResourceActionForm.t) (data : string) (s : Form),
    let resource := res_id (ResourceActionForm.edit_resource self) in
    valid_username data = true ->
    ((forall a, In a (ResourceAction_table db) -> act_name a = data ->
                act_resource a <> resource) ->
     ResourceActionForm.validate_name valid_username db self data s
     = (Ok tt, logged (Q_ResourceAction data resource) s))
    /\ ((exists a, In a (ResourceAction_table db)
                   /\ act_name a = data /\ act_resource a = resource) ->
        (forall a, In a (ResourceAction_table db) ->
                   act_name a = data -> act_resource a = resource ->
                   ResourceActionForm.edit_id self <> Some (act_id a)) ->
        ResourceActionForm.validate_name valid_username db self data s
        = (Raise (ValidationError DuplicateAction),
           logged (Q_ResourceAction data resource) s)).
Proof.
  intros vu db self data s resource Hname. split.
  - intro Hother. apply Action_validate_name_ok; auto.
    intros a Hin Ha Hr. exfalso. exact (Hother a Hin Ha Hr).
  - intros Hused Hkeys. now apply Action_validate_name_duplicate.
Qed.

(** The scenario of the spec: with "read" under "billing" in the store,
    "read" under "profile" is accepted and a second "read" under "billing" is
    refused. *)
Lemma action_name_unique_per_resource_witness :
  let db := add_action (mkResourceAction 51 "read" 21) Sample.empty_db in
  ResourceActionForm.validate_name utils_valid_username db
    (Sample.action_form "read" Sample.profile None) "read" new_form
  = (Ok tt, logged (Q_ResourceAction "read" 22) new_form)
  /\ ResourceActionForm.validate_name utils_valid_username db
       (Sample.action_form "read" Sample.billing None) "read" new_form
     = (Raise (ValidationError DuplicateAction),
        logged (Q_ResourceAction "read" 21) new_form).
Proof.
  intro db. split.
  - apply (action_name_unique_per_resource utils_valid_username db
             (Sample.action_form "read" Sample.profile None) "read" new_form eq_refl).
    intros a [<-|[]] _. discriminate.
  - apply (action_name_unique_per_resource utils_valid_username db
             (Sample.action_form "read" Sample.billing None) "read" new_form eq_refl).
    + exists (mkResourceAction 51 "read" 21). repeat split. left. reflexivity.
    + intros a _ _ _. discriminate.
Defined.

(** C8 (amended).  The action form has no rule for the name "read": where
    "read" passes the charset check, an action named "read" is accepted like
    any other name, namely when every action of the resource which bears the
    name is the one being edited. *)
Theorem read_action_not_special :
  forall (valid_username : string -> bool) (db : Store)
         (self : ResourceActionForm.t) (s : Form),
    let resource := res_id (ResourceActionForm.edit_resource self) in
    valid_username "read" = true ->
    (forall a, In a (ResourceAction_table db) ->
               act_name a = "read" -> act_resource a = resource ->
               ResourceActionForm.edit_id self = Some (act_id a)) ->
    ResourceActionForm.validate_name valid_username db self "read" s
    = (Ok tt, logged (Q_ResourceAction "read" resource) s).
Proof.
  intros vu db self s resource Hname Hself.
  now apply Action_validate_name_ok.
Qed.

Lemma read_action_not_special_witness :
  ResourceActionForm.validate_name utils_valid_username Sample.empty_db
    (Sample.action_form "read" Sample.billing None) "read" new_form
  = (Ok tt, logged (Q_ResourceAction "read" 21) new_form).
Proof.
  apply (read_action_not_special utils_valid_username Sample.empty_db
           (Sample.action_form "read" Sample.billing None) new_form eq_refl).
  intros a [].
Defined.

(** C8, as stated, fails: the form for a new action named "read" under the
    resource "billing" validates. *)
Lemma read_action_accepted :
  ResourceActionForm.validate utils_valid_username Sample.empty_db
    (Sample.action_form "read" Sample.billing None) new_form
  = (Ok true,
     mkForm None None [("name", []); ("title", []); ("description", [])]
            [Q_ResourceAction "read" 21]).
Proof. reflexivity. Qed.

(* ===================================================================== *)
(** ** The URL fields of the client form                                   *)
(* ===================================================================== *)

Section ClientFields.

Variable url_match : string -> bool.

Lemma Field_validate_required_url (fname data : string) (s : Form) :
  Field_validate (mkField fname data None [Required; RegisterClientForm.URL url_match])
                 [] s
  = (Ok (no_errors (url_errors url_match true data)),
     mkForm (self_user s) (self_org s)
            (assoc_set fname (url_errors url_match true data) (errors s))
            (queries s)).
Proof.
  unfold Field_validate, bind, pre_validate, url_errors. simpl.
  unfold Required, RegisterClientForm.URL.
  destruct (blank data); [reflexivity|].
  destruct (url_match data); reflexivity.
Qed.

Lemma Field_validate_optional_url (fname data : string) (s : Form) :
  Field_validate (mkField fname data None [Optional; RegisterClientForm.URL url_match])
                 [] s
  = (Ok (no_errors (url_errors url_match false data)),
     mkForm (self_user s) (self_org s)
            (assoc_set fname (url_errors url_match false data) (errors s))
            (queries s)).
Proof.
  unfold Field_validate, bind, pre_validate, url_errors. simpl.
  unfold Optional, RegisterClientForm.URL.
  destruct (blank data); [reflexivity|].
  destruct (url_match data); reflexivity.
Qed.

(** The owner field never raises out of its chain. *)
Lemma Field_validate_client_owner (g_user : User) (self : RegisterClientForm.t) (s : Form) :
  exists errs su so qs,
    Field_validate (mkField "client_owner" (RegisterClientForm.client_owner self)
                            (Some (RegisterClientForm.client_owner_choices self))
                            [Required])
                   [RegisterClientForm.validate_client_owner g_user] s
    = (Ok (no_errors errs),
       mkForm su so (assoc_set "client_owner" errs (errors s)) qs).
Proof.
  unfold Field_validate, bind. simpl. unfold Required at 1.
  destruct (blank (RegisterClientForm.client_owner self)); simpl.
  - field_result.
  - destruct (validate_client_owner_cases g_user (RegisterClientForm.client_owner self) s)
      as [(_ & E)|[(_ & o & _ & E)|(_ & _ & E)]]; rewrite E; simpl; field_result.
Qed.

Lemma no_errors_nil (errs : list string) : no_errors errs = true <-> errs = [].
Proof. destruct errs; simpl; split; congruence. Qed.

End ClientFields.

(** C9 (amended).  The URL fields of client registration.  The form never
    raises.  [redirect_uri], [notification_uri], [iframe_uri] and
    [resource_uri] are optional: blank, they carry no error, and otherwise
    they must match the URL pattern of [URL(require_tld = False)] or carry
    "Invalid URL.".  [website] is required: blank, it carries "This field is
    required.", and otherwise it must match the same pattern.  The form is
    accepted exactly when title and description are not blank, the owner field
    has no error and no URL field has one. *)
Theorem client_url_fields :
  forall (url_match : string -> bool) (g_user : User)
         (self : RegisterClientForm.t) (s : Form),
    exists ok f,
      RegisterClientForm.validate url_match g_user self s = (Ok ok, f)
      /\ assoc_get "website" (errors f)
         = url_errors url_match true (RegisterClientForm.website self)
      /\ assoc_get "redirect_uri" (errors f)
         = url_errors url_match false (RegisterClientForm.redirect_uri self)
      /\ assoc_get "notification_uri" (errors f)
         = url_errors url_match false (RegisterClientForm.notification_uri self)
      /\ assoc_get "iframe_uri" (errors f)
         = url_errors url_match false (RegisterClientForm.iframe_uri self)
      /\ assoc_get "resource_uri" (errors f)
         = url_errors url_match false (RegisterClientForm.resource_uri self)
      /\ (ok = true <->
          blank (RegisterClientForm.title self) = false
          /\ blank (RegisterClientForm.description self) = false
          /\ assoc_get "client_owner" (errors f) = []
          /\ url_errors url_match true (RegisterClientForm.website self) = []
          /\ url_errors url_match false (RegisterClientForm.redirect_uri self) = []
          /\ url_errors url_match false (RegisterClientForm.notification_uri self) = []
          /\ url_errors url_match false (RegisterClientForm.iframe_uri self) = []
          /\ url_errors url_match false (RegisterClientForm.resource_uri self) = []).
Proof.
  intros url g_user self s.
  unfold RegisterClientForm.validate, RegisterClientForm.fields.
  rewrite Form_validate_cons, Field_validate_Required.
  rewrite Form_validate_cons, Field_validate_Required.
  rewrite Form_validate_cons.
  match goal with
  | |- context [Field_validate _ _ ?s1] =>
      destruct (Field_validate_client_owner g_user self s1) as (errs & su & so & qs & E)
  end.
  rewrite E. clear E.
  rewrite Form_validate_cons, Field_validate_required_url.
  repeat (rewrite Form_validate_cons, Field_validate_optional_url).
  rewrite Form_validate_cons, Field_validate_plain. simpl.
  eexists _, _. split; [reflexivity|]. simpl.
  rewrite !assoc_get_set. simpl.
  repeat (split; [reflexivity|]).
  rewrite !andb_true_iff, !negb_true_iff, !no_errors_nil.
  tauto.
Qed.

(** A website without a scheme is refused; the blank redirect URI is not an
    error. *)
Lemma client_url_fields_witness :
  exists ok f,
    RegisterClientForm.validate URL_match Sample.U
      (Sample.client_form "localhost" "") new_form = (Ok ok, f)
    /\ assoc_get "website" (errors f) = [MalformedURI]
    /\ assoc_get "redirect_uri" (errors f) = [].
Proof.
  destruct (client_url_fields URL_match Sample.U
              (Sample.client_form "localhost" "") new_form)
    as (ok & f & E & Hwebsite & Hredirect & _).
  exists ok, f. repeat split.
  - exact E.
  - exact Hwebsite.
  - exact Hredirect.
Defined.

(** C9, as stated, fails: [website] is a URL field and is not optional.  A
    client form which is complete but for the website is rejected. *)
Lemma website_absent_rejected :
  RegisterClientForm.validate URL_match Sample.U (Sample.client_form "" "") new_form
  = (Ok false,
     mkForm (Some (Some Sample.U)) (Some None)
            [("title", []); ("description", []); ("client_owner", []);
             ("website", [MissingValue]); ("redirect_uri", []);
             ("notification_uri", []); ("iframe_uri", []); ("resource_uri", []);
             ("allow_any_login", [])]
            []).
Proof. reflexivity. Qed.

(* ===================================================================== *)
(** ** Owner reassignment                                                  *)
(* ===================================================================== *)

Lemma Principal_eqb_eq (a b : Grants.Principal) :
  Grants.Principal_eqb a b = true <-> a = b.
Proof.
  destruct a as [i|i], b as [j|j]; simpl; rewrite ?Z.eqb_eq;
    split; intro H; try discriminate; try congruence.
Qed.

Lemma revoked_none (c : Z) (l : list Grants.Grant) :
  filter (fun g => (Grants.grant_client g =? c)%Z)
         (filter (fun g => negb (Grants.grant_client g =? c)%Z) l) = [].
Proof.
  induction l as [|g l IH]; simpl; auto.
  destruct (Grants.grant_client g =? c)%Z eqn:E; simpl; auto.
  now rewrite E.
Qed.

Lemma revoked_others (c c' : Z) (l : list Grants.Grant) :
  c' <> c ->
  filter (fun g => (Grants.grant_client g =? c')%Z)
         (filter (fun g => negb (Grants.grant_client g =? c)%Z) l)
  = filter (fun g => (Grants.grant_client g =? c')%Z) l.
Proof.
  intro Hne. induction l as [|g l IH]; simpl; auto.
  destruct (Grants.grant_client g =? c)%Z eqn:E; simpl.
  - apply Z.eqb_eq in E. rewrite E.
    apply not_eq_sym, Z.eqb_neq in Hne. now rewrite Hne.
  - now rewrite IH.
Qed.

Lemma owner_after_update (c : Z) (new_owner : Grants.Principal)
      (l : list Grants.Client) (cl : Grants.Client) :
  find (fun x => (Grants.client_id x =? c)%Z) l = Some cl ->
  find (fun x => (Grants.client_id x =? c)%Z)
       (map (fun x => if (Grants.client_id x =? c)%Z
                      then Grants.mkClient c new_owner else x) l)
  = Some (Grants.mkClient c new_owner).
Proof.
  induction l as [|x l IH]; simpl; [discriminate|].
  destruct (Grants.client_id x =? c)%Z eqn:E; simpl.
  - intros _. now rewrite Z.eqb_refl.
  - rewrite E. exact IH.
Qed.

(** C4.  Owner reassignment, on the model of Contract D: when the owner of a
    client changes, the permission lookup for that client returns the empty
    list afterwards, the client has the new owner, and the grants of every
    other client are as before. *)
Theorem owner_reassignment_revokes :
  forall (st : Grants.t) (c : Z) (old_owner new_owner : Grants.Principal),
    Grants.owner_of c st = Some old_owner ->
    old_owner <> new_owner ->
    let st' := Grants.reassign_owner c new_owner st in
    Grants.permissions_of c st' = []
    /\ Grants.owner_of c st' = Some new_owner
    /\ forall c', c' <> c -> Grants.permissions_of c' st' = Grants.permissions_of c' st.
Proof.
  intros st c old_owner new_owner Hold Hne st'. subst st'.
  unfold Grants.reassign_owner. rewrite Hold.
  destruct (Grants.Principal_eqb old_owner new_owner) eqn:E.
  - apply Principal_eqb_eq in E. contradiction.
  - unfold Grants.permissions_of, Grants.owner_of in *. simpl.
    repeat split.
    + apply revoked_none.
    + destruct (find _ (Grants.clients st)) as [cl|] eqn:Hfind; [|discriminate].
      now rewrite (owner_after_update c new_owner _ _ Hfind).
    + intros c' Hc'. now apply revoked_others.
Qed.

(** The scenario of the spec: client 7, owned by user U with two grants, goes
    to organization A. *)
Lemma owner_reassignment_revokes_witness :
  let st := Grants.mk [Grants.mkClient 7 (Grants.OwnerUser 1);
                       Grants.mkClient 8 (Grants.OwnerUser 1)]
                      [Grants.mkGrant 7 (Grants.ToUser 2) 41;
                       Grants.mkGrant 8 (Grants.ToUser 2) 41;
                       Grants.mkGrant 7 (Grants.ToTeam 3) 42] in
  Grants.permissions_of 7 (Grants.reassign_owner 7 (Grants.OwnerOrg 11) st) = [].
Proof.
  intro st.
  assert (Hold : Grants.owner_of 7 st = Some (Grants.OwnerUser 1)) by reflexivity.
  assert (Hne : Grants.OwnerUser 1 <> Grants.OwnerOrg 11) by discriminate.
  destruct (owner_reassignment_revokes st 7 (Grants.OwnerUser 1) (Grants.OwnerOrg 11)
              Hold Hne) as [Hrevoked _].
  exact Hrevoked.
Defined.

(* ===================================================================== *)
(** ** Further properties of the resolution                                *)
(* ===================================================================== *)

(** X1.  The resolution never leaves a foreign principal in the form: after
    [validate_client_owner] or [validate_context] returned, an organization
    in [self.org] is one of the organizations the acting user owns and bears
    the submitted identifier, and a user in [self.user] is the acting user,
    whose own identifier was submitted. *)
Theorem resolution_never_foreign :
  forall (g_user : User) (ident : string) (s f : Form),
    RegisterClientForm.validate_client_owner g_user ident s = (Ok tt, f)
    \/ PermissionForm.validate_context g_user ident s = (Ok tt, f) ->
    (forall o, self_org f = Some (Some o) ->
               In o (organizations_owned g_user)
               /\ org_userid o = ident /\ ident <> userid g_user)
    /\ (forall u, self_user f = Some (Some u) ->
                  u = g_user /\ ident = userid g_user).
Proof.
  intros g_user ident s f H.
  assert (Hcases :
            (ident = userid g_user
             /\ f = mkForm (Some (Some g_user)) (Some None) (errors s) (queries s))
            \/ (ident <> userid g_user
                /\ exists o,
                  filter (fun org => org_userid org =? ident)
                         (organizations_owned g_user) = [o]
                  /\ f = mkForm (Some None) (Some (Some o)) (errors s)
                                (queries s ++ [Q_organizations_owned (user_id g_user)]))).
  { destruct H as [H|H].
    - destruct (validate_client_owner_cases g_user ident s)
        as [(He & E)|[(Hne & o & Ho & E)|(_ & _ & E)]];
        rewrite E in H; try discriminate; injection H as <-.
      + left. auto.
      + right. split; auto. exists o. auto.
    - destruct (validate_context_cases g_user ident s)
        as [(He & E)|[(Hne & o & Ho & E)|(_ & _ & E)]];
        rewrite E in H; try discriminate; injection H as <-.
      + left. auto.
      + right. split; auto. exists o. auto. }
  destruct Hcases as [(He & ->)|(Hne & o & Ho & ->)]; simpl; split.
  - intros o Hf. discriminate.
  - intros u Hu. injection Hu as <-. auto.
  - intros o' Hf. injection Hf as <-.
    assert (Hin : In o (filter (fun org => org_userid org =? ident)
                               (organizations_owned g_user)))
      by (rewrite Ho; left; reflexivity).
    apply filter_In in Hin. destruct Hin as [Hin Hid].
    apply String.eqb_eq in Hid. auto.
  - intros u Hu. discriminate.
Qed.

Lemma resolution_never_foreign_witness :
  In Sample.org_B (organizations_owned Sample.U)
  /\ org_userid Sample.org_B = "org-b" /\ "org-b" <> userid Sample.U.
Proof.
  destruct (resolution_never_foreign Sample.U "org-b" new_form
              (mkForm (Some None) (Some (Some Sample.org_B)) []
                      [Q_organizations_owned 1])
              (or_intror eq_refl)) as [Horg _].
  apply Horg. reflexivity.
Defined.

(** X2.  The two copies of the resolver decide alike: on the same acting
    user, identifier and form object, [validate_client_owner] and
    [validate_context] leave the same form object, and either both return or
    both raise, each its own message. *)
Theorem resolvers_agree :
  forall (g_user : User) (ident : string) (s : Form),
    snd (RegisterClientForm.validate_client_owner g_user ident s)
    = snd (PermissionForm.validate_context g_user ident s)
    /\ ((fst (RegisterClientForm.validate_client_owner g_user ident s) = Ok tt
         /\ fst (PermissionForm.validate_context g_user ident s) = Ok tt)
        \/ (fst (RegisterClientForm.validate_client_owner g_user ident s)
            = Raise (ValidationError "Invalid owner")
            /\ fst (PermissionForm.validate_context g_user ident s)
               = Raise (ValidationError "Invalid context"))).
Proof.
  intros g_user ident s.
  destruct (String.eqb_spec ident (userid g_user)) as [He|Hne].
  - rewrite (validate_client_owner_self g_user ident s He).
    rewrite (validate_context_self g_user ident s He). simpl. auto.
  - destruct (Nat.eq_dec
                (length (filter (fun org => org_userid org =? ident)
                                (organizations_owned g_user))) 1) as [Hlen|Hlen].
    + destruct (length_one _ Hlen) as [o Ho].
      rewrite (validate_client_owner_org g_user ident s o Hne Ho).
      rewrite (validate_context_org g_user ident s o Hne Ho). simpl. auto.
    + rewrite (validate_client_owner_reject g_user ident s Hne Hlen).
      rewrite (validate_context_reject g_user ident s Hne Hlen). simpl. auto.
Qed.

(* ===================================================================== *)
(** ** Further properties of PermissionForm.validate                       *)
(* ===================================================================== *)

(** The context field in full: its errors, and what an accepted value is. *)
Lemma Field_validate_context_full (g_user : User) (self : PermissionForm.t) (s : Form) :
  exists ok f,
    Field_validate (mkField "context" (PermissionForm.context self)
                            (Some (PermissionForm.context_choices self)) [Required])
                   [PermissionForm.validate_context g_user] s
    = (Ok ok, f)
    /\ (forall k, k <> "context" -> assoc_get k (errors f) = assoc_get k (errors s))
    /\ (ok = true ->
        assoc_get "context" (errors f) = []
        /\ blank (PermissionForm.context self) = false
        /\ In (PermissionForm.context self) (PermissionForm.context_choices self)
        /\ context_resolved g_user self f).
Proof.
  assert (Hother : forall v k l, k <> "context" ->
                     assoc_get k (assoc_set "context" v l) = assoc_get k l).
  { intros v k l Hk. rewrite assoc_get_set.
    apply not_eq_sym, String.eqb_neq in Hk. now rewrite Hk. }
  assert (Hchoice : forall errs,
             pre_validate (mkField "context" (PermissionForm.context self)
                                   (Some (PermissionForm.context_choices self))
                                   [Required]) = errs ->
             errs = [] ->
             In (PermissionForm.context self) (PermissionForm.context_choices self)).
  { unfold pre_validate. simpl. intros errs <-.
    destruct (existsb _ _) eqn:Hex; [|discriminate].
    intros _. apply existsb_exists in Hex. destruct Hex as (c & Hin & Hc).
    apply String.eqb_eq in Hc. now subst c. }
  unfold Field_validate, bind, context_resolved. simpl.
  unfold Required at 1.
  destruct (blank (PermissionForm.context self)) eqn:Hblank; simpl.
  - eexists _, _. split; [reflexivity|]. simpl. split; [intros k Hk; now apply Hother|].
    discriminate.
  - destruct (validate_context_cases g_user (PermissionForm.context self) s)
      as [(He & E)|[(Hne & o & Ho & E)|(Hne & Hlen & E)]]; rewrite E; simpl.
    + eexists _, _. split; [reflexivity|]. simpl. split; [intros k Hk; now apply Hother|].
      intro Hok. rewrite assoc_get_set. simpl.
      destruct (pre_validate _) eqn:Hpre; [|discriminate].
      repeat split; auto. apply (Hchoice [] eq_refl eq_refl).
    + eexists _, _. split; [reflexivity|]. simpl. split; [intros k Hk; now apply Hother|].
      intro Hok. rewrite assoc_get_set. simpl.
      destruct (pre_validate _) eqn:Hpre; [|discriminate].
      repeat split; auto.
      * apply (Hchoice [] eq_refl eq_refl).
      * right. split; auto. exists o. repeat split. now apply owned_filter.
    + eexists _, _. split; [reflexivity|]. simpl. split; [intros k Hk; now apply Hother|].
      destruct (pre_validate _); discriminate.
Qed.

Lemma PermissionForm_fields_full (g_user : User) (self : PermissionForm.t) (s : Form) :
  exists rv f,
    Form_validate (PermissionForm.fields g_user self) s = (Ok rv, f)
    /\ (rv = true ->
        assoc_get "name" (errors f) = []
        /\ assoc_get "title" (errors f) = []
        /\ assoc_get "description" (errors f) = []
        /\ assoc_get "context" (errors f) = []
        /\ blank (PermissionForm.name self) = false
        /\ blank (PermissionForm.title self) = false
        /\ In (PermissionForm.context self) (PermissionForm.context_choices self)
        /\ context_resolved g_user self f).
Proof.
  unfold PermissionForm.fields.
  rewrite Form_validate_cons, Field_validate_Required.
  rewrite Form_validate_cons, Field_validate_Required.
  rewrite Form_validate_cons, Field_validate_plain.
  rewrite Form_validate_cons.
  match goal with
  | |- context [Field_validate _ _ ?s1] =>
      destruct (Field_validate_context_full g_user self s1) as (ok & f & E & Herr & Hok)
  end.
  rewrite E. simpl in *. eexists _, f. split; [reflexivity|].
  intro Hrv.
  apply andb_prop in Hrv. destruct Hrv as [Hname Hrv].
  apply andb_prop in Hrv. destruct Hrv as [Htitle Hrv]. simpl in Hrv.
  rewrite andb_true_r in Hrv.
  apply negb_true_iff in Hname. apply negb_true_iff in Htitle.
  destruct (Hok Hrv) as (Hctx & _ & Hin & Hres).
  rewrite !Herr by discriminate. rewrite !assoc_get_set. simpl.
  rewrite Hname, Htitle. repeat split; auto.
Qed.

(** X3.  The only exception [PermissionForm.validate] lets out is the
    [ValidationError] of the charset check, and it lets it out exactly when
    the field validators passed and the name fails the check.  The error is
    then not recorded on the field: [name.errors] is empty. *)
Theorem permission_validate_raises_only_invalid_name :
  forall (valid_username : string -> bool) (g_user : User) (db : Store)
         (self : PermissionForm.t) (s : Form),
    let r := PermissionForm.validate valid_username g_user db self s in
    (fst r = Raise (ValidationError InvalidName) <->
     accepted (Form_validate (PermissionForm.fields g_user self) s)
     /\ valid_username (PermissionForm.name self) = false)
    /\ (forall e, fst r = Raise e ->
                  e = ValidationError InvalidName
                  /\ assoc_get "name" (errors (snd r)) = []).
Proof.
  intros vu g_user db self s r. subst r. unfold accepted.
  destruct (PermissionForm_fields_validate g_user self s) as (rv & f & E & _ & Hok).
  rewrite E. simpl.
  destruct rv.
  - destruct (Hok eq_refl) as [Herr _].
    destruct (vu (PermissionForm.name self)) eqn:Hname.
    + rewrite (validate_after_fields vu g_user db self s _ E Hname).
      destruct (conflicts _ _); [|destruct (conflicts _ _)]; simpl;
        (split; [split; [discriminate|intros [_ H]; discriminate]
                |intros e H; discriminate]).
    + rewrite (validate_invalid_name vu g_user db self s _ E Hname). simpl.
      split; [tauto|]. intros e H. injection H as <-. auto.
  - rewrite (validate_fields_failed vu g_user db self s _ E). simpl.
    split; [split; [discriminate|intros [H _]; discriminate]
           |intros e H; discriminate].
Qed.

Lemma permission_validate_raises_only_invalid_name_witness :
  fst (PermissionForm.validate utils_valid_username Sample.U Sample.empty_db
         (Sample.permission_form "Bad Name" "org-a" None) new_form)
  = Raise (ValidationError InvalidName).
Proof.
  apply (permission_validate_raises_only_invalid_name utils_valid_username
           Sample.U Sample.empty_db
           (Sample.permission_form "Bad Name" "org-a" None) new_form).
  split; reflexivity.
Defined.

(** X4.  An accepted permission form is clean and resolved: no field carries
    an error, name and title are not blank, the name passes the charset
    check, the context is one of the choices of the radio field, and
    [self.user] and [self.org] hold the resolution of the context. *)
Theorem permission_accepted_clean :
  forall (valid_username : string -> bool) (g_user : User) (db : Store)
         (self : PermissionForm.t) (s : Form),
    accepted (PermissionForm.validate valid_username g_user db self s) ->
    let f := snd (PermissionForm.validate valid_username g_user db self s) in
    (forall field, In field ["name"; "title"; "description"; "context"] ->
                   assoc_get field (errors f) = [])
    /\ blank (PermissionForm.name self) = false
    /\ blank (PermissionForm.title self) = false
    /\ valid_username (PermissionForm.name self) = true
    /\ In (PermissionForm.context self) (PermissionForm.context_choices self)
    /\ context_resolved g_user self f.
Proof.
  intros vu g_user db self s. unfold accepted.
  destruct (PermissionForm_fields_full g_user self s) as (rv & f0 & E & Hok).
  destruct rv.
  - destruct (Hok eq_refl) as (Hn & Ht & Hd & Hc & Hbn & Hbt & Hin & Hres).
    destruct (vu (PermissionForm.name self)) eqn:Hname.
    + rewrite (validate_after_fields vu g_user db self s _ E Hname).
      destruct (conflicts _ _); [discriminate|].
      destruct (conflicts _ _); [discriminate|].
      intros _. simpl. repeat split; auto.
      intros field [<-|[<-|[<-|[<-|[]]]]]; assumption.
    + rewrite (validate_invalid_name vu g_user db self s _ E Hname). discriminate.
  - rewrite (validate_fields_failed vu g_user db self s _ E). discriminate.
Qed.

Lemma permission_accepted_clean_witness :
  context_resolved Sample.U (Sample.permission_form "admin" "org-a" None)
    (snd (PermissionForm.validate utils_valid_username Sample.U Sample.empty_db
            (Sample.permission_form "admin" "org-a" None) new_form)).
Proof.
  apply (permission_accepted_clean utils_valid_username Sample.U Sample.empty_db
           (Sample.permission_form "admin" "org-a" None) new_form).
  reflexivity.
Defined.

Lemma no_global_row (db : Store) (name : string) :
  (forall q, In q (Permission_table db) -> perm_name q = name -> allusers q = false) ->
  global_existing db name = None.
Proof.
  intro H. apply first_none. intros q Hin.
  destruct (String.eqb_spec (perm_name q) name) as [Hq|Hq]; simpl; auto.
Qed.

(** X5.  The scoped check decides by the resolved context.  On a store
    consistent with the user model, for a new permission whose fields pass,
    whose name passes the charset check and is borne by no global permission:
    the form is refused with "You have another permission with the same name"
    when some permission bears the name and belongs to the user or the
    organization left in [self.user] / [self.org], and it is accepted when
    none does. *)
Theorem new_permission_scoped_decision :
  forall (valid_username : string -> bool) (g_user : User) (db : Store)
         (self : PermissionForm.t) (s : Form),
    consistent g_user db ->
    PermissionForm.edit_obj self = None ->
    accepted (Form_validate (PermissionForm.fields g_user self) s) ->
    valid_username (PermissionForm.name self) = true ->
    (forall q, In q (Permission_table db) ->
               perm_name q = PermissionForm.name self -> allusers q = false) ->
    let r := PermissionForm.validate valid_username g_user db self s in
    ((exists q, In q (Permission_table db)
                /\ perm_name q = PermissionForm.name self
                /\ belongs_to_resolved (snd r) q) ->
     rejected r "name" DuplicateScopedPermission)
    /\ ((forall q, In q (Permission_table db) ->
                   perm_name q = PermissionForm.name self ->
                   ~ belongs_to_resolved (snd r) q) ->
        accepted r).
Proof.
  intros vu g_user db self s Hdb Hnew Hfields Hname Hscopedonly r. subst r.
  destruct (accepted_fields _ _ _ Hfields) as (f & E & Herr & Hres).
  rewrite (validate_after_fields vu g_user db self s _ E Hname).
  rewrite Hnew. simpl option_map at 2 4. rewrite !conflicts_create.
  rewrite (no_global_row _ _ Hscopedonly).
  assert (Hsame : forall f', self_user f' = self_user f -> self_org f' = self_org f ->
                    forall q, belongs_to_resolved f' q
                              <-> scoped_to g_user db (PermissionForm.context self) q = true).
  { intros f' Hu Ho q. rewrite (scoped_to_resolved g_user db self f q Hdb Hres).
    unfold belongs_to_resolved, resolved_user, resolved_org. now rewrite Hu, Ho. }
  destruct (scoped_existing g_user db self) as [e|] eqn:Efound; simpl.
  - split.
    + intros _. split; auto. simpl. rewrite assoc_get_set. simpl. now rewrite Herr.
    + intro Hnone. exfalso.
      apply first_some in Efound. destruct Efound as [Hin He].
      apply andb_prop in He. destruct He as [He Hctx]. apply String.eqb_eq in He.
      apply (Hnone e Hin He). now apply (Hsame _ eq_refl eq_refl).
  - split.
    + intros (q & Hin & Hq & Hbel). exfalso.
      pose proof (proj1 (first_none _ _) Efound q Hin) as Hno. simpl in Hno.
      apply String.eqb_eq in Hq. rewrite Hq in Hno. simpl in Hno.
      apply (Hsame _ eq_refl eq_refl) in Hbel. congruence.
    + intros _. reflexivity.
Qed.

(** A second scoped "admin" under organization A, which already has one. *)
Lemma new_permission_scoped_decision_witness :
  rejected (PermissionForm.validate utils_valid_username Sample.U
              (add_permission (mkPermission 41 "admin" false None (Some 11%Z))
                              Sample.empty_db)
              (Sample.permission_form "admin" "org-a" None) new_form)
           "name" DuplicateScopedPermission.
Proof.
  apply (new_permission_scoped_decision utils_valid_username Sample.U
           (add_permission (mkPermission 41 "admin" false None (Some 11%Z))
                           Sample.empty_db)
           (Sample.permission_form "admin" "org-a" None) new_form);
    try reflexivity.
  - exact sample_consistent.
  - intros q [<-|[]] _. reflexivity.
  - exists (mkPermission 41 "admin" false None (Some 11%Z)).
    repeat split.
    + left. reflexivity.
    + right. exists 11%Z. split; reflexivity.
Defined.

(** X6.  An organization which the organization table does not return has no
    scoped check: when the context is not the acting user's own identifier
    and no row of the organization table bears it, a form whose fields pass,
    whose name passes the charset check and is borne by no global permission
    is accepted, whatever scoped permissions the store holds and whether the
    form creates or edits. *)
Theorem unknown_organization_skips_scoped_check :
  forall (valid_username : string -> bool) (g_user : User) (db : Store)
         (self : PermissionForm.t) (s : Form),
    accepted (Form_validate (PermissionForm.fields g_user self) s) ->
    valid_username (PermissionForm.name self) = true ->
    (forall q, In q (Permission_table db) ->
               perm_name q = PermissionForm.name self -> allusers q = false) ->
    PermissionForm.context self <> userid g_user ->
    (forall o, In o (Organization_table db) ->
               org_userid o <> PermissionForm.context self) ->
    accepted (PermissionForm.validate valid_username g_user db self s).
Proof.
  intros vu g_user db self s Hfields Hname Hscopedonly Hctx Hnorow.
  destruct (accepted_fields _ _ _ Hfields) as (f & E & _ & _).
  rewrite (validate_after_fields vu g_user db self s _ E Hname).
  rewrite (no_global_row _ _ Hscopedonly). simpl.
  assert (Hnone : scoped_existing g_user db self = None).
  { apply first_none. intros q _. unfold scoped_to.
    apply String.eqb_neq in Hctx. rewrite Hctx.
    rewrite (proj2 (first_none _ (Organization_table db))).
    - apply andb_false_r.
    - intros o Hin. apply String.eqb_neq. now apply Hnorow. }
  rewrite Hnone. reflexivity.
Qed.

(** User V owns organization D, which is not a row of the organization
    table: a second "admin" under D goes through. *)
Lemma unknown_organization_skips_scoped_check_witness :
  let org_D := mkOrganization 14 "org-d" in
  let V := mkUser 5 "user-v" [org_D] in
  let db := add_permission (mkPermission 61 "admin" false None (Some 14%Z))
                           Sample.empty_db in
  accepted (PermissionForm.validate utils_valid_username V db
              (PermissionForm.mk "admin" "Title" "" "org-d" ["user-v"; "org-d"] None)
              new_form).
Proof.
  intros org_D V db.
  apply (unknown_organization_skips_scoped_check utils_valid_username V db
           (PermissionForm.mk "admin" "Title" "" "org-d" ["user-v"; "org-d"] None)
           new_form); try reflexivity.
  - intros q [<-|[]] _. reflexivity.
  - discriminate.
  - intros o [<-|[<-|[<-|[]]]]; discriminate.
Defined.

(** X7.  The exclusion of the edited row covers that row only.  Where the
    keys of the permission table are distinct, editing a permission into a
    name it does not bear, while a global permission or a permission of the
    form's context bears that name, is refused with one of the two duplicate
    messages. *)
Theorem rename_to_taken_name_rejected :
  forall (valid_username : string -> bool) (g_user : User) (db : Store)
         (self : PermissionForm.t) (s : Form) (p : Permission),
    NoDup (map perm_id (Permission_table db)) ->
    In p (Permission_table db) ->
    PermissionForm.edit_obj self = Some p ->
    perm_name p <> PermissionForm.name self ->
    accepted (Form_validate (PermissionForm.fields g_user self) s) ->
    valid_username (PermissionForm.name self) = true ->
    (exists q, In q (Permission_table db)
               /\ perm_name q = PermissionForm.name self
               /\ (allusers q = true
                   \/ scoped_to g_user db (PermissionForm.context self) q = true)) ->
    let r := PermissionForm.validate valid_username g_user db self s in
    rejected r "name" DuplicateGlobalPermission
    \/ rejected r "name" DuplicateScopedPermission.
Proof.
  intros vu g_user db self s p Hkeys Hp Hedit Hrename Hfields Hname Htaken r. subst r.
  destruct (accepted_fields _ _ _ Hfields) as (f & E & Herr & _).
  rewrite (validate_after_fields vu g_user db self s _ E Hname).
  rewrite Hedit.
  assert (Hother : forall (test : Permission -> bool),
             conflicts
               (option_map perm_id
                  (first (fun q => (perm_name q =? PermissionForm.name self) && test q)
                         (Permission_table db)))
               (option_map perm_id (Some p)) = false ->
             first (fun q => (perm_name q =? PermissionForm.name self) && test q)
                   (Permission_table db) = None).
  { intros test Hc. destruct (first _ _) as [e|] eqn:He; [|reflexivity].
    exfalso. apply first_some in He. destruct He as [Hin He].
    apply andb_prop in He. destruct He as [He _]. apply String.eqb_eq in He.
    simpl in Hc. apply negb_false_iff, Z.eqb_eq in Hc.
    assert (p = e)
      by (apply (NoDup_map_eq perm_id _ _ _ Hkeys Hp Hin); congruence).
    subst e. contradiction. }
  destruct (conflicts (option_map perm_id (global_existing db _)) _) eqn:Cg.
  - left. split; auto. simpl. rewrite assoc_get_set. simpl. now rewrite Herr.
  - destruct (conflicts (option_map perm_id (scoped_existing g_user db self)) _) eqn:Cs.
    + right. split; auto. simpl. rewrite assoc_get_set. simpl. now rewrite Herr.
    + exfalso. apply Hother in Cg. apply Hother in Cs.
      destruct Htaken as (q & Hin & Hq & [Hglobal|Hscoped]);
        apply String.eqb_eq in Hq.
      * pose proof (proj1 (first_none _ _) Cg q Hin) as Hno. simpl in Hno.
        rewrite Hq, Hglobal in Hno. discriminate.
      * pose proof (proj1 (first_none _ _) Cs q Hin) as Hno. simpl in Hno.
        rewrite Hq, Hscoped in Hno. discriminate.
Qed.

(** The "editor" permission of organization A is renamed to "admin", which
    organization A already has. *)
Lemma rename_to_taken_name_rejected_witness :
  let admin_A := mkPermission 41 "admin" false None (Some 11%Z) in
  let editor_A := mkPermission 42 "editor" false None (Some 11%Z) in
  let db := add_permission editor_A (add_permission admin_A Sample.empty_db) in
  rejected (PermissionForm.validate utils_valid_username Sample.U db
              (Sample.permission_form "admin" "org-a" (Some editor_A)) new_form)
           "name" DuplicateScopedPermission.
Proof.
  intros admin_A editor_A db.
  destruct (rename_to_taken_name_rejected utils_valid_username Sample.U db
              (Sample.permission_form "admin" "org-a" (Some editor_A)) new_form
              editor_A) as [[_ Hglobal]|Hscoped]; try reflexivity.
  - simpl. repeat constructor; simpl; intuition discriminate.
  - right. left. reflexivity.
  - discriminate.
  - exists admin_A. repeat split.
    + left. reflexivity.
    + right. reflexivity.
  - discriminate Hglobal.
  - exact Hscoped.
Defined.

(* ===================================================================== *)
(** ** The resource and action forms as a whole                            *)
(* ===================================================================== *)

Section NameFields.

Variable valid_username : string -> bool.
Variable db : Store.

Lemma conflicts_new_none {A} (key : A -> Z) (existing : option A) :
  conflicts (option_map key existing) None = false <-> existing = None.
Proof. destruct existing; simpl; split; congruence. Qed.

Lemma conflicts_false_iff {A} (key : A -> Z) (existing : option A) (edit_id : option Z) :
  conflicts (option_map key existing) edit_id = false
  <-> forall x, existing = Some x -> edit_id = Some (key x).
Proof.
  destruct existing as [x|]; simpl.
  - rewrite id_differs_false. split.
    + intros H y Hy. injection Hy as <-. exact H.
    + intro H. now apply H.
  - split; [intros _ y Hy; discriminate|reflexivity].
Qed.

(** The name field of the resource form: its errors and its lookups. *)
Lemma ResourceForm_name_field (self : ResourceForm.t) (data : string) (s : Form) :
  exists errs,
    Field_validate (mkField "name" data None [Required])
                   [ResourceForm.validate_name valid_username db self] s
    = (Ok (no_errors errs),
       mkForm (self_user s) (self_org s) (assoc_set "name" errs (errors s))
              (queries s ++ name_lookups valid_username data (Q_Resource data)))
    /\ (errs = [] <->
        blank data = false /\ valid_username data = true
        /\ conflicts (option_map res_id
                        (first (fun r => res_name r =? data) (Resource_table db)))
                     (ResourceForm.edit_id self) = false).
Proof.
  unfold Field_validate, bind, pre_validate, name_lookups. simpl.
  unfold Required at 1.
  destruct (blank data); simpl.
  - exists [MissingValue]. rewrite app_nil_r. split; [reflexivity|].
    split; [discriminate|intros [H _]; discriminate].
  - unfold ResourceForm.validate_name, bind, issue.
    destruct (valid_username data); simpl.
    + destruct (conflicts _ _); simpl.
      * exists [DuplicateResource]. split; [reflexivity|].
        split; [discriminate|intros (_ & _ & H); discriminate].
      * exists []. split; [reflexivity|]. tauto.
    + eexists [_]. rewrite app_nil_r. split; [reflexivity|].
      split; [discriminate|intros (_ & H & _); discriminate].
Qed.

(** The name field of the action form. *)
Lemma ResourceActionForm_name_field (self : ResourceActionForm.t) (data : string)
      (s : Form) :
  let resource := res_id (ResourceActionForm.edit_resource self) in
  exists errs,
    Field_validate (mkField "name" data None [Required])
                   [ResourceActionForm.validate_name valid_username db self] s
    = (Ok (no_errors errs),
       mkForm (self_user s) (self_org s) (assoc_set "name" errs (errors s))
              (queries s
               ++ name_lookups valid_username data (Q_ResourceAction data resource)))
    /\ (errs = [] <->
        blank data = false /\ valid_username data = true
        /\ conflicts (option_map act_id
                        (first (fun a => (act_name a =? data)
                                         && (act_resource a =? resource)%Z)
                               (ResourceAction_table db)))
                     (ResourceActionForm.edit_id self) = false).
Proof.
  intro resource.
  unfold Field_validate, bind, pre_validate, name_lookups. simpl.
  unfold Required at 1.
  destruct (blank data); simpl.
  - exists [MissingValue]. rewrite app_nil_r. split; [reflexivity|].
    split; [discriminate|intros [H _]; discriminate].
  - unfold ResourceActionForm.validate_name, bind, issue. fold resource.
    destruct (valid_username data); simpl.
    + destruct (conflicts _ _); simpl.
      * exists [DuplicateAction]. split; [reflexivity|].
        split; [discriminate|intros (_ & _ & H); discriminate].
      * exists []. split; [reflexivity|]. tauto.
    + eexists [_]. rewrite app_nil_r. split; [reflexivity|].
      split; [discriminate|intros (_ & H & _); discriminate].
Qed.

End NameFields.

(** X8.  [ResourceForm] as a whole.  Validation never raises and leaves
    [self.user] and [self.org] alone.  A name which is blank or fails the
    charset check is refused without reading the store, and otherwise the
    resource table is read once.  Whether it creates or edits, the form is
    accepted exactly when name and title are not blank, the name passes the
    charset check and the row the lookup returns, if any, is the edited one.
    A new resource is thus accepted exactly when name and title are not
    blank, the name passes the charset check and no resource of the store
    bears it, whoever owns it and whatever the two flags are. *)
Theorem resource_form_validate :
  forall (valid_username : string -> bool) (db : Store)
         (self : ResourceForm.t) (s : Form),
    exists ok f,
      ResourceForm.validate valid_username db self s = (Ok ok, f)
      /\ queries f
         = queries s ++ name_lookups valid_username (ResourceForm.name self)
                                     (Q_Resource (ResourceForm.name self))
      /\ self_user f = self_user s /\ self_org f = self_org s
      /\ (ok = true <->
          blank (ResourceForm.name self) = false
          /\ blank (ResourceForm.title self) = false
          /\ valid_username (ResourceForm.name self) = true
          /\ forall r, first (fun r => res_name r =? ResourceForm.name self)
                             (Resource_table db) = Some r ->
                       ResourceForm.edit_id self = Some (res_id r))
      /\ (ResourceForm.edit_id self = None ->
          (ok = true <->
           blank (ResourceForm.name self) = false
           /\ blank (ResourceForm.title self) = false
           /\ valid_username (ResourceForm.name self) = true
           /\ forall r, In r (Resource_table db) ->
                        res_name r <> ResourceForm.name self)).
Proof.
  intros vu db self s.
  unfold ResourceForm.validate, ResourceForm.fields.
  rewrite Form_validate_cons.
  destruct (ResourceForm_name_field vu db self (ResourceForm.name self) s)
    as (errs & E & Herrs).
  rewrite E.
  rewrite Form_validate_cons, Field_validate_Required.
  repeat (rewrite Form_validate_cons, Field_validate_plain).
  simpl. eexists _, _. split; [reflexivity|]. simpl.
  repeat (split; [reflexivity|]).
  rewrite !andb_true_r, andb_true_iff, negb_true_iff, no_errors_nil, Herrs.
  split.
  - rewrite conflicts_false_iff. tauto.
  - intro Hnew. rewrite Hnew.
    rewrite conflicts_new_none, first_none.
    split.
    + intros ((Hn & Hv & Hfree) & Ht). repeat split; auto.
      intros r Hin. apply String.eqb_neq. now apply Hfree.
    + intros (Hn & Ht & Hv & Hfree). repeat split; auto.
      intros r Hin. apply String.eqb_neq. now apply Hfree.
Qed.

(** X9.  [ResourceActionForm] as a whole.  Validation never raises.  A name
    which is blank or fails the charset check is refused without reading the
    store, and otherwise the action table is read once, for the resource of
    the form.  Whether it creates or edits, the form is accepted exactly when
    name and title are not blank, the name passes the charset check and the
    row the lookup returns, if any, is the edited one.  A new action is thus
    accepted exactly when name and title are not blank, the name passes the
    charset check and no action of that resource bears it. *)
Theorem action_form_validate :
  forall (valid_username : string -> bool) (db : Store)
         (self : ResourceActionForm.t) (s : Form),
    let resource := res_id (ResourceActionForm.edit_resource self) in
    exists ok f,
      ResourceActionForm.validate valid_username db self s = (Ok ok, f)
      /\ queries f
         = queries s
           ++ name_lookups valid_username (ResourceActionForm.name self)
                           (Q_ResourceAction (ResourceActionForm.name self) resource)
      /\ (ok = true <->
          blank (ResourceActionForm.name self) = false
          /\ blank (ResourceActionForm.title self) = false
          /\ valid_username (ResourceActionForm.name self) = true
          /\ forall a,
               first (fun a => (act_name a =? ResourceActionForm.name self)
                               && (act_resource a =? resource)%Z)
                     (ResourceAction_table db) = Some a ->
               ResourceActionForm.edit_id self = Some (act_id a))
      /\ (ResourceActionForm.edit_id self = None ->
          (ok = true <->
           blank (ResourceActionForm.name self) = false
           /\ blank (ResourceActionForm.title self) = false
           /\ valid_username (ResourceActionForm.name self) = true
           /\ forall a, In a (ResourceAction_table db) ->
                        act_name a = ResourceActionForm.name self ->
                        act_resource a <> resource)).
Proof.
  intros vu db self s resource.
  unfold ResourceActionForm.validate, ResourceActionForm.fields.
  rewrite Form_validate_cons.
  destruct (ResourceActionForm_name_field vu db self (ResourceActionForm.name self) s)
    as (errs & E & Herrs).
  rewrite E.
  rewrite Form_validate_cons, Field_validate_Required.
  rewrite Form_validate_cons, Field_validate_plain.
  simpl. eexists _, _. split; [reflexivity|]. simpl.
  split; [reflexivity|].
  rewrite !andb_true_r, andb_true_iff, negb_true_iff, no_errors_nil, Herrs.
  fold resource. split.
  - rewrite conflicts_false_iff. tauto.
  - intro Hnew. rewrite Hnew.
    rewrite conflicts_new_none, first_none.
    split.
    + intros ((Hn & Hv & Hfree) & Ht). repeat split; auto.
      intros a Hin Ha Hr. specialize (Hfree a Hin). simpl in Hfree.
      apply String.eqb_eq in Ha. apply Z.eqb_eq in Hr.
      rewrite Ha, Hr in Hfree. discriminate.
    + intros (Hn & Ht & Hv & Hfree). repeat split; auto.
      intros a Hin. simpl.
      destruct (String.eqb_spec (act_name a) (ResourceActionForm.name self)) as [Ha|Ha];
        simpl; auto.
      apply Z.eqb_neq. now apply Hfree.
Qed.

(** A new resource "invoices", beside "billing" and "profile"; and the
    resource "profile", edited into a name with a space and capitals. *)
Lemma resource_form_validate_witness :
  (exists ok f,
      ResourceForm.validate utils_valid_username Sample.empty_db
        (ResourceForm.mk "invoices" "Invoices" "" false true None) new_form
      = (Ok ok, f)
      /\ ok = true)
  /\ (exists ok f,
         ResourceForm.validate utils_valid_username Sample.empty_db
           (ResourceForm.mk "Bad Name" "Profile" "" false true (Some 22%Z)) new_form
         = (Ok ok, f)
         /\ ok = false /\ queries f = []).
Proof.
  split.
  - destruct (resource_form_validate utils_valid_username Sample.empty_db
                (ResourceForm.mk "invoices" "Invoices" "" false true None) new_form)
      as (ok & f & E & _ & _ & _ & _ & Hnew).
    exists ok, f. split; [exact E|].
    apply Hnew; [reflexivity|]. repeat split.
    intros r [<-|[<-|[]]]; discriminate.
  - destruct (resource_form_validate utils_valid_username Sample.empty_db
                (ResourceForm.mk "Bad Name" "Profile" "" false true (Some 22%Z))
                new_form)
      as (ok & f & E & Hq & _ & _ & Hany & _).
    exists ok, f. split; [exact E|]. split; [|exact Hq].
    destruct ok; [|reflexivity].
    destruct (proj1 Hany eq_refl) as (_ & _ & Hvalid & _). discriminate Hvalid.
Defined.

(** A new action "write" under "billing", which has "read"; and the action
    "read", edited into a name with a space and capitals. *)
Lemma action_form_validate_witness :
  (exists ok f,
      ResourceActionForm.validate utils_valid_username
        (add_action (mkResourceAction 51 "read" 21) Sample.empty_db)
        (Sample.action_form "write" Sample.billing None) new_form
      = (Ok ok, f)
      /\ ok = true)
  /\ (exists ok f,
         ResourceActionForm.validate utils_valid_username
           (add_action (mkResourceAction 51 "read" 21) Sample.empty_db)
           (Sample.action_form "Bad Name" Sample.billing (Some 51%Z)) new_form
         = (Ok ok, f)
         /\ ok = false /\ queries f = []).
Proof.
  split.
  - destruct (action_form_validate utils_valid_username
                (add_action (mkResourceAction 51 "read" 21) Sample.empty_db)
                (Sample.action_form "write" Sample.billing None) new_form)
      as (ok & f & E & _ & _ & Hnew).
    exists ok, f. split; [exact E|].
    apply Hnew; [reflexivity|]. repeat split.
    intros a [<-|[]]; discriminate.
  - destruct (action_form_validate utils_valid_username
                (add_action (mkResourceAction 51 "read" 21) Sample.empty_db)
                (Sample.action_form "Bad Name" Sample.billing (Some 51%Z)) new_form)
      as (ok & f & E & Hq & Hany & _).
    exists ok, f. split; [exact E|]. split; [|exact Hq].
    destruct ok; [|reflexivity].
    destruct (proj1 Hany eq_refl) as (_ & _ & Hvalid & _). discriminate Hvalid.
Defined.

(* ===================================================================== *)
(** ** The assignment forms                                                *)
(* ===================================================================== *)

(** X10.  The [username] field of [UserPermissionAssignForm].  Its validation
    never raises, reads no table of the store and leaves [self.org] alone.  A
    blank value is "This field is required." and the user directory is not
    consulted: [self.user] is as before.  A value for which [getuser] finds
    nobody is "User does not exist", again with [self.user] as before.
    Otherwise the field has no error and [self.user] is the user found. *)
Theorem username_field_validate :
  forall (getuser : string -> option User) (data : string) (s : Form),
    exists ok f,
      Field_validate (fst (UserPermissionAssignForm.username_field getuser data))
                     (snd (UserPermissionAssignForm.username_field getuser data)) s
      = (Ok ok, f)
      /\ queries f = queries s /\ self_org f = self_org s
      /\ (blank data = true ->
          ok = false /\ assoc_get "username" (errors f) = [MissingValue]
          /\ self_user f = self_user s)
      /\ (blank data = false -> getuser data = None ->
          ok = false /\ assoc_get "username" (errors f) = ["User does not exist"]
          /\ self_user f = self_user s)
      /\ (blank data = false -> forall u, getuser data = Some u ->
          ok = true /\ assoc_get "username" (errors f) = []
          /\ self_user f = Some (Some u)).
Proof.
  intros getuser data s.
  unfold UserPermissionAssignForm.username_field, Field_validate, bind, pre_validate.
  simpl. unfold Required at 1.
  destruct (blank data); simpl.
  - eexists _, _. split; [reflexivity|]. simpl. rewrite assoc_get_set. simpl.
    split; [reflexivity|]. split; [reflexivity|]. split; [auto|].
    split; intro H; discriminate.
  - unfold UserPermissionAssignForm.validate_username.
    destruct (getuser data) as [u|]; simpl.
    + eexists _, _. split; [reflexivity|]. simpl. rewrite assoc_get_set. simpl.
      split; [reflexivity|]. split; [reflexivity|].
      split; [intro H; discriminate|].
      split; [intros _ H; discriminate|].
      intros _ u' H. injection H as <-. auto.
    + eexists _, _. split; [reflexivity|]. simpl. rewrite assoc_get_set. simpl.
      split; [reflexivity|]. split; [reflexivity|].
      split; [intro H; discriminate|].
      split; [auto|].
      intros _ u' H. discriminate.
Qed.

Lemma username_field_validate_witness :
  exists ok f,
    Field_validate (fst (UserPermissionAssignForm.username_field sample_getuser "user-u"))
                   (snd (UserPermissionAssignForm.username_field sample_getuser "user-u"))
                   new_form
    = (Ok ok, f)
    /\ ok = true /\ self_user f = Some (Some Sample.U).
Proof.
  destruct (username_field_validate sample_getuser "user-u" new_form)
    as (ok & f & E & _ & _ & _ & _ & Hfound).
  exists ok, f. split; [exact E|].
  destruct (Hfound eq_refl Sample.U eq_refl) as (Hok & _ & Hu). auto.
Defined.

Lemma team_filter (self : TeamPermissionAssignForm.t) (ident : string)
      (team : TeamPermissionAssignForm.Team) :
  exactly_one_team self ident team <->
  filter (fun t' => TeamPermissionAssignForm.team_userid t' =? ident)
         (TeamPermissionAssignForm.org_teams self) = [team].
Proof.
  split.
  - intros (l1 & l2 & -> & Ht & Hrest).
    apply split_filter_singleton.
    + now apply String.eqb_eq.
    + intros x Hx. apply String.eqb_neq. now apply Hrest.
  - intro H. apply filter_singleton_split in H.
    destruct H as (l1 & l2 & Hl & Ht & Hrest).
    exists l1, l2. repeat split; auto.
    + now apply String.eqb_eq.
    + intros x Hx. apply String.eqb_neq. now apply Hrest.
Qed.

(** X11.  [TeamPermissionAssignForm.validate_team_id].  When exactly one team
    of the organization bears the identifier, [self.team] becomes that team;
    in every other case, none or several, the validator raises "Unknown
    team" and the form object is as before.  It never fails on the index, and
    a team it assigns is a team of the organization which bears the
    identifier. *)
Theorem validate_team_id_resolves :
  forall (self : TeamPermissionAssignForm.t) (ident : string),
    (forall team, exactly_one_team self ident team ->
       TeamPermissionAssignForm.validate_team_id ident self
       = (Ok tt, TeamPermissionAssignForm.mk
                   (TeamPermissionAssignForm.org_teams self) (Some team)))
    /\ ((forall team, ~ exactly_one_team self ident team) ->
        TeamPermissionAssignForm.validate_team_id ident self
        = (Raise (ValidationError "Unknown team"), self))
    /\ (forall self', TeamPermissionAssignForm.validate_team_id ident self
                      = (Ok tt, self') ->
        exists team,
          TeamPermissionAssignForm.self_team self' = Some team
          /\ In team (TeamPermissionAssignForm.org_teams self)
          /\ TeamPermissionAssignForm.team_userid team = ident)
    /\ fst (TeamPermissionAssignForm.validate_team_id ident self) <> Raise IndexError.
Proof.
  intros self ident.
  unfold TeamPermissionAssignForm.validate_team_id.
  split; [|split; [|split]].
  - intros team Hone. apply team_filter in Hone. now rewrite Hone.
  - intro Hnone.
    destruct (Nat.eqb_spec (length (filter (fun t' =>
                TeamPermissionAssignForm.team_userid t' =? ident)
                (TeamPermissionAssignForm.org_teams self))) 1) as [Hlen|Hlen];
      [|reflexivity].
    exfalso. destruct (length_one _ Hlen) as [team Ht].
    apply (Hnone team). now apply team_filter.
  - intros self'.
    destruct (filter _ _) as [|team [|t2 rest]] eqn:Hf; simpl; try discriminate.
    intro H. injection H as <-. exists team. simpl. split; auto.
    assert (Hin : In team (filter (fun t' =>
                TeamPermissionAssignForm.team_userid t' =? ident)
                (TeamPermissionAssignForm.org_teams self)))
      by (rewrite Hf; left; reflexivity).
    apply filter_In in Hin. destruct Hin as [Hin Hid].
    apply String.eqb_eq in Hid. auto.
  - destruct (filter _ _) as [|team [|t2 rest]]; simpl; discriminate.
Qed.

(** Two teams of an organization; the identifier of the second. *)
Lemma validate_team_id_resolves_witness :
  let owners := TeamPermissionAssignForm.mkTeam 71 "team-owners" in
  let staff := TeamPermissionAssignForm.mkTeam 72 "team-staff" in
  let self := TeamPermissionAssignForm.mk [owners; staff] None in
  TeamPermissionAssignForm.validate_team_id "team-staff" self
  = (Ok tt, TeamPermissionAssignForm.mk [owners; staff] (Some staff))
  /\ TeamPermissionAssignForm.validate_team_id "team-guests" self
     = (Raise (ValidationError "Unknown team"), self).
Proof.
  intros owners staff self.
  destruct (validate_team_id_resolves self "team-staff") as (Hone & _).
  destruct (validate_team_id_resolves self "team-guests") as (_ & Hnone & _).
  split.
  - apply Hone. exists [owners], []. repeat split.
    simpl. intros t' [<-|[]]. discriminate.
  - apply Hnone. intros team (l1 & l2 & Hl & Ht & _).
    assert (Hin : In team (TeamPermissionAssignForm.org_teams self))
      by (rewrite Hl; apply in_or_app; right; left; reflexivity).
    simpl in Hin. destruct Hin as [<-|[<-|[]]]; discriminate.
Defined.

(* ===================================================================== *)
(** ** The client form as a whole                                          *)
(* ===================================================================== *)

(** The owner field in full: its lookups, and what an accepted value is. *)
Lemma Field_validate_client_owner_full (g_user : User) (self : RegisterClientForm.t)
      (s : Form) :
  let owner := RegisterClientForm.client_owner self in
  exists ok f,
    Field_validate (mkField "client_owner" owner
                            (Some (RegisterClientForm.client_owner_choices self))
                            [Required])
                   [RegisterClientForm.validate_client_owner g_user] s
    = (Ok ok, f)
    /\ (ok = true ->
        In owner (RegisterClientForm.client_owner_choices self)
        /\ blank owner = false
        /\ resolved_as g_user owner f
        /\ queries f
           = queries s ++ (if owner =? userid g_user then []
                           else [Q_organizations_owned (user_id g_user)])).
Proof.
  intro owner.
  assert (Hchoice :
            pre_validate (mkField "client_owner" owner
                                  (Some (RegisterClientForm.client_owner_choices self))
                                  [Required]) = [] ->
            In owner (RegisterClientForm.client_owner_choices self)).
  { unfold pre_validate. simpl.
    destruct (existsb _ _) eqn:Hex; [|discriminate].
    intros _. apply existsb_exists in Hex. destruct Hex as (c & Hin & Hc).
    apply String.eqb_eq in Hc. now subst c. }
  unfold Field_validate, bind, resolved_as. simpl.
  unfold Required at 1.
  destruct (blank owner) eqn:Hblank; simpl.
  - eexists _, _. split; [reflexivity|]. discriminate.
  - destruct (validate_client_owner_cases g_user owner s)
      as [(He & E)|[(Hne & o & Ho & E)|(Hne & Hlen & E)]]; rewrite E; simpl.
    + eexists _, _. split; [reflexivity|]. simpl.
      destruct (pre_validate _) eqn:Hpre; [|discriminate].
      intros _. repeat split; auto.
      apply String.eqb_eq in He. rewrite He. now rewrite app_nil_r.
    + eexists _, _. split; [reflexivity|]. simpl.
      destruct (pre_validate _) eqn:Hpre; [|discriminate].
      intros _. repeat split; auto.
      * right. split; auto. exists o. repeat split. now apply owned_filter.
      * apply String.eqb_neq in Hne. now rewrite Hne.
    + eexists _, _. split; [reflexivity|]. simpl.
      destruct (pre_validate _); discriminate.
Qed.

(** X12.  An accepted client form has its owner resolved: when
    [RegisterClientForm.validate] returns [True], [self.user] and [self.org]
    hold the resolution of the submitted owner (the acting user, or the one
    owned organization which bears the identifier), the owner is one of the
    choices of the radio field, and the only read of the whole validation is
    the lookup of the owned organizations, made when the owner is not the
    acting user's own identifier. *)
Theorem client_accepted_owner_resolved :
  forall (url_match : string -> bool) (g_user : User)
         (self : RegisterClientForm.t) (s : Form),
    accepted (RegisterClientForm.validate url_match g_user self s) ->
    let f := snd (RegisterClientForm.validate url_match g_user self s) in
    resolved_as g_user (RegisterClientForm.client_owner self) f
    /\ In (RegisterClientForm.client_owner self)
          (RegisterClientForm.client_owner_choices self)
    /\ queries f
       = queries s
         ++ (if RegisterClientForm.client_owner self =? userid g_user then []
             else [Q_organizations_owned (user_id g_user)]).
Proof.
  intros url g_user self s. unfold accepted.
  unfold RegisterClientForm.validate, RegisterClientForm.fields.
  rewrite Form_validate_cons, Field_validate_Required.
  rewrite Form_validate_cons, Field_validate_Required.
  rewrite Form_validate_cons.
  match goal with
  | |- context [Field_validate _ _ ?s1] =>
      destruct (Field_validate_client_owner_full g_user self s1) as (ok & f & E & Hok)
  end.
  rewrite E. clear E.
  rewrite Form_validate_cons, Field_validate_required_url.
  repeat (rewrite Form_validate_cons, Field_validate_optional_url).
  rewrite Form_validate_cons, Field_validate_plain. simpl.
  intro Hacc. injection Hacc as Hacc.
  apply andb_prop in Hacc. destruct Hacc as [_ Hacc].
  apply andb_prop in Hacc. destruct Hacc as [_ Hacc].
  apply andb_prop in Hacc. destruct Hacc as [Hacc _].
  destruct (Hok Hacc) as (Hin & _ & Hres & Hq). simpl in Hq.
  unfold resolved_as in *. simpl. auto.
Qed.

Lemma client_accepted_owner_resolved_witness :
  resolved_as Sample.U "user-u"
    (snd (RegisterClientForm.validate URL_match Sample.U
            (Sample.client_form "http://localhost:8000/" "") new_form)).
Proof.
  apply (client_accepted_owner_resolved URL_match Sample.U
           (Sample.client_form "http://localhost:8000/" "") new_form).
  reflexivity.
Defined.

(* ===================================================================== *)
(** ** Renaming a resource or an action                                    *)
(* ===================================================================== *)

(** X13.  The exclusion of the edited row covers that row only, for
    resources and actions.  Where the keys of the table are distinct, the
    edited row is a row of it and the submitted name passes the charset
    check but is not the name the row bears: a name borne by a resource is
    refused with "A resource with that name already exists", and a name
    borne by an action of the form's resource is refused with "An action
    with that name already exists for this resource". *)
Theorem rename_to_taken_resource_name_rejected :
  forall (valid_username : string -> bool) (db : Store) (data : string) (s : Form),
    valid_username data = true ->
    (forall (self : ResourceForm.t) (r : Resource),
        NoDup (map res_id (Resource_table db)) ->
        In r (Resource_table db) ->
        ResourceForm.edit_id self = Some (res_id r) ->
        res_name r <> data ->
        (exists r', In r' (Resource_table db) /\ res_name r' = data) ->
        ResourceForm.validate_name valid_username db self data s
        = (Raise (ValidationError DuplicateResource), logged (Q_Resource data) s))
    /\ (forall (self : ResourceActionForm.t) (a : ResourceAction),
           let resource := res_id (ResourceActionForm.edit_resource self) in
           NoDup (map act_id (ResourceAction_table db)) ->
           In a (ResourceAction_table db) ->
           ResourceActionForm.edit_id self = Some (act_id a) ->
           act_name a <> data ->
           (exists a', In a' (ResourceAction_table db)
                       /\ act_name a' = data /\ act_resource a' = resource) ->
           ResourceActionForm.validate_name valid_username db self data s
           = (Raise (ValidationError DuplicateAction),
              logged (Q_ResourceAction data resource) s)).
Proof.
  intros vu db data s Hname. split.
  - intros self r Hkeys Hin Hedit Hrename Htaken.
    apply Resource_validate_name_duplicate; auto.
    intros r' Hin' Hr'. rewrite Hedit. intro Hid. injection Hid as Hid.
    assert (r = r') by (apply (NoDup_map_eq res_id _ _ _ Hkeys Hin Hin' Hid)).
    subst r'. contradiction.
  - intros self a resource Hkeys Hin Hedit Hrename Htaken.
    apply Action_validate_name_duplicate; auto.
    intros a' Hin' Ha' _. rewrite Hedit. intro Hid. injection Hid as Hid.
    assert (a = a') by (apply (NoDup_map_eq act_id _ _ _ Hkeys Hin Hin' Hid)).
    subst a'. contradiction.
Qed.

(** The resource "profile" is renamed to "billing". *)
Lemma rename_to_taken_resource_name_rejected_witness :
  ResourceForm.validate_name utils_valid_username Sample.empty_db
    (ResourceForm.mk "billing" "Profile" "" false false (Some 22%Z))
    "billing" new_form
  = (Raise (ValidationError DuplicateResource), logged (Q_Resource "billing") new_form).
Proof.
  destruct (rename_to_taken_resource_name_rejected utils_valid_username
              Sample.empty_db "billing" new_form eq_refl) as [Hres _].
  apply (Hres (ResourceForm.mk "billing" "Profile" "" false false (Some 22%Z))
              Sample.profile).
  - simpl. repeat constructor; simpl; intuition discriminate.
  - right. left. reflexivity.
  - reflexivity.
  - discriminate.
  - exists Sample.billing. split; [left|]; reflexivity.
Defined.
